(** * Verification of the juju unit workers

    Shallow embedding of
    - [worker/deployer/simple.go]      (module [Deployer]),
    - the CAAS unit provisioner's [unitWorker]  (module [UnitWorker]),
    - the gate exercised by [cmd/jujud/agent/machine/manifolds_test.go]
      (module [Gate]).

    Go's [error] interface is a nil-able value; it is embedded as
    [option err].  Functions returning [(value, error)] whose value is
    only read when the error is nil are embedded as [result]. *)

From Stdlib Require Import List String Ascii Bool Arith Lia.
Import ListNotations.

Open Scope string_scope.
Open Scope list_scope.

(* ================================================================== *)
(** ** Go errors (github.com/juju/errors, fmt.Errorf) *)
(* ================================================================== *)

Module GoErrors.

(** The error values the embedded code builds or inspects. *)
Inductive err : Type :=
| New (msg : string)                  (* errors.New / fmt.Errorf *)
| NotFoundf (msg : string)            (* errors.NotFoundf *)
| Traced (e : err)                    (* errors.Trace e *)
| Annotated (e : err) (msg : string)  (* errors.Annotate e msg *)
| ErrDying.                           (* the supervision unit's dying error *)

(** A Go [error]: [None] is [nil]. *)
Definition error : Type := option err.

Inductive result (A : Type) : Type :=
| Ok (a : A)
| Error (e : err).
Arguments Ok {A} a.
Arguments Error {A} e.

(** errors.Trace: nil stays nil. *)
Definition Trace (e : error) : error := option_map Traced e.

(** errors.Annotate: nil stays nil. *)
Definition Annotate (e : error) (msg : string) : error :=
  option_map (fun e' => Annotated e' msg) e.

(** errors.Cause: the innermost error under Trace/Annotate wrappers. *)
Fixpoint Cause (e : err) : err :=
  match e with
  | Traced e' => Cause e'
  | Annotated e' _ => Cause e'
  | _ => e
  end.

(** errors.IsNotFound: the cause is a not-found error. *)
Definition IsNotFound (e : error) : bool :=
  match e with
  | Some e' => match Cause e' with NotFoundf _ => true | _ => false end
  | None => false
  end.

Definition is_nil (e : error) : bool :=
  match e with None => true | Some _ => false end.

End GoErrors.

(* ================================================================== *)
(** ** Character and string helpers *)
(* ================================================================== *)

Module Chars.

Definition in_range (lo hi : nat) (c : ascii) : bool :=
  ((lo <=? nat_of_ascii c)%nat && (nat_of_ascii c <=? hi)%nat)%bool.

(** [0-9] *)
Definition digit (c : ascii) : bool := in_range 48 57 c.

(** [a-z] *)
Definition lower (c : ascii) : bool := in_range 97 122 c.

(** [a-z0-9-] *)
Definition lower_digit_dash (c : ascii) : bool :=
  lower c || digit c || Ascii.eqb c "-"%char.

Definition chars (s : string) : list ascii := list_ascii_of_string s.
Definition text (l : list ascii) : string := string_of_list_ascii l.

End Chars.

(* ================================================================== *)
(** ** worker/deployer/simple.go *)
(* ================================================================== *)

Module Deployer.
Import GoErrors Chars.

(** SimpleContext manages unit deployments via upstart jobs on the
    local system. *)
Record SimpleContext : Type := {
  caCert : string;
  deployerTag : string;
  initDir : string;
  dataDir : string;
  logDir : string;
  syslogConfigDir : string;
  syslogConfigPath : string;
  stateAddrs : list string;
  apiAddrs : list string
}.

Definition NewSimpleContext (dataDir : string) (CACert : string)
    (deployerTag : string) (stateAddrs apiAddrs : list string)
    : SimpleContext :=
  let dataDir := if String.eqb dataDir "" then "/var/lib/juju" else dataDir in
  {| caCert := CACert;
     deployerTag := deployerTag;
     initDir := "/etc/init";
     dataDir := dataDir;
     logDir := "/var/log/juju";
     syslogConfigDir := "";
     syslogConfigPath := "";
     stateAddrs := stateAddrs;
     apiAddrs := apiAddrs |}.

(** *** The anchored regular expression [deployedRe]

    [deployedRe] is a sequence of literals and capturing groups of the
    form [([class]+)], anchored at both ends.  The matcher below is the
    backtracking, greedy, leftmost-first search that Go's
    [FindStringSubmatch] agrees with. *)
Inductive regex_item : Type :=
| Lit (s : string)
| Group (cls : ascii -> bool).

Fixpoint strip_prefix (p s : list ascii) : option (list ascii) :=
  match p, s with
  | [], _ => Some s
  | a :: p', b :: s' => if Ascii.eqb a b then strip_prefix p' s' else None
  | _ :: _, [] => None
  end.

(** One or more characters of [cls], longest run first; [acc] is what
    the group has captured so far and [k] matches the rest of the
    expression. *)
Fixpoint group_plus {R : Type} (cls : ascii -> bool) (s acc : list ascii)
    (k : list ascii -> list ascii -> option R) : option R :=
  match s with
  | [] => None
  | c :: s' =>
      if cls c then
        match group_plus cls s' (acc ++ [c]) k with
        | Some r => Some r
        | None => k (acc ++ [c]) s'
        end
      else None
  end.

(** [caps] holds the captures made so far, most recent first. *)
Fixpoint match_items (re : list regex_item) (s : list ascii)
    (caps : list string) : option (list string) :=
  match re with
  | [] => match s with [] => Some (rev caps) | _ :: _ => None end
  | Lit l :: re' =>
      match strip_prefix (chars l) s with
      | Some s' => match_items re' s' caps
      | None => None
      end
  | Group cls :: re' =>
      group_plus cls s [] (fun g rest => match_items re' rest (text g :: caps))
  end.

(** regexp.FindStringSubmatch: the whole match followed by the groups,
    or nil when the expression does not match. *)
Definition FindStringSubmatch (re : list regex_item) (s : string)
    : list string :=
  match match_items re (chars s) [] with
  | Some groups => s :: groups
  | None => []
  end.

(** ^jujud-([a-z0-9-]+):unit-([a-z0-9-]+)-([0-9]+)\.conf$ *)
Definition deployedRe : list regex_item :=
  [ Lit "jujud-"; Group lower_digit_dash; Lit ":unit-";
    Group lower_digit_dash; Lit "-"; Group digit; Lit ".conf" ].

(** *** Collaborators of the deployer *)

Record Service : Type := { Name : string; InitDir : string }.

Record Info : Type := {
  Addrs : list string;
  Tag : string;
  CACert : string
}.

(** agent.Conf *)
Record Conf : Type := {
  DataDir : string;
  OldPassword : string;
  StateInfo : Info;
  APIInfo : Info
}.

(** upstart.Conf *)
Record UpstartConf : Type := {
  UService : Service;
  Desc : string;
  Cmd : string;
  Out : string
}.

(** The local system as seen by the deployer: the answer of every call
    that leaves the package. *)
Record Host : Type := {
  Installed : Service -> bool;                  (* svc.Installed() *)
  ChangeAgentTools : string -> string -> error; (* agent.ChangeAgentTools *)
  ConfWrite : Conf -> error;                    (* conf.Write() *)
  SyslogWrite : string -> string -> error;      (* syslogConfigRenderer.Write() *)
  SyslogRestart : error;                        (* syslog.Restart() *)
  UpstartInstall : UpstartConf -> error;        (* uconf.Install() *)
  OsRemove : string -> error;                   (* os.Remove *)
  ReadDir : string -> result (list string)      (* ioutil.ReadDir, file names *)
}.

(** What a call of the deployer did to the local system, in order. *)
Inductive effect : Type :=
| LinkedTools (toolsDir : string) (r : error)
| WroteConf (dir : string) (r : error)
| WroteSyslog (path : string) (r : error)
| RestartedSyslog (r : error)
| InstalledJob (uconf : UpstartConf) (r : error)
| Removed (path : string) (r : error)
| Warned (msg : string).

(** The calls of [RecallUnit] that leave the package and are not
    among those of [Host]. *)
Record RecallHost : Type := {
  SvcRemove : Service -> error;      (* svc.Remove() *)
  OsRemoveAll : string -> error      (* os.RemoveAll *)
}.

(** What a call of [RecallUnit] did to the local system, in order. *)
Inductive recall_effect : Type :=
| RemovedJob (svc : Service) (r : error)
| RemovedTree (path : string) (r : error)
| Plain (e : effect).

(** The paths a recall has tried to remove, with os.RemoveAll or
    os.Remove. *)
Definition recalled_by (e : recall_effect) : list string :=
  match e with
  | RemovedTree p _ => [p]
  | Plain (Removed p _) => [p]
  | _ => []
  end.

Definition recalled (done : list recall_effect) : list string :=
  flat_map recalled_by done.

(** The paths an effect sequence has brought into existence. *)
Definition created_by (e : effect) : list string :=
  match e with
  | LinkedTools p None => [p]
  | WroteConf p None => [p]
  | WroteSyslog p None => [p]
  | _ => []
  end.

(** The paths an effect sequence has tried to remove. *)
Definition removed_by (e : effect) : list string :=
  match e with
  | Removed p _ => [p]
  | _ => []
  end.

Definition created (done : list effect) : list string :=
  flat_map created_by done.

Definition removed (done : list effect) : list string :=
  flat_map removed_by done.

Section WithHost.

(** Helpers of packages that are not part of the sources at hand. *)
Variable UnitTag : string -> string.              (* state.UnitTag *)
Variable IsUnitName : string -> bool.             (* state.IsUnitName *)
Variable ToolsDir : string -> string -> string.   (* agent.ToolsDir *)
Variable AgentDir : string -> string -> string.   (* agent.Dir, conf.Dir() *)
Variable Join : string -> string -> string.       (* path.Join *)
Variable ConfigFilePath : string -> string -> string.
                                (* syslogConfigRenderer.ConfigFilePath() *)
Variable Sprintf : string -> list string -> string.  (* fmt.Sprintf *)

Variable host : Host.

Definition Errorf (format : string) (args : list string) : error :=
  Some (New (Sprintf format args)).

Definition confDir (conf : Conf) : string :=
  AgentDir (DataDir conf) (Tag (StateInfo conf)).

(** upstartService returns the upstart service of the unit, badged with
    the deployer tag of the context. *)
Definition upstartService (ctx : SimpleContext) (unitName : string)
    : Service :=
  let tag := UnitTag unitName in
  let svcName := ("jujud-" ++ deployerTag ctx ++ ":" ++ tag)%string in
  {| Name := svcName; InitDir := initDir ctx |}.

Definition removeOnErr (err : error) (path : string) : list effect :=
  match err with
  | Some _ =>
      match OsRemove host path with
      | Some e =>
          [ Removed path (Some e);
            Warned (Sprintf "installer: cannot remove %q: %v" [path]) ]
      | None => [ Removed path None ]
      end
  | None => []
  end.

(** Go runs the deferred calls of a function when it returns, the last
    deferred first, after the named result [err] has been set.
    [deferred] is the stack of paths handed to [removeOnErr]. *)
Definition run_deferred (err : error) (deferred : list string)
    : list effect :=
  flat_map (removeOnErr err) deferred.

(** [return err], after the effects [done]. *)
Definition returning (ctx : SimpleContext) (err : error)
    (deferred : list string) (done : list effect)
    : SimpleContext * error * list effect :=
  (ctx, err, done ++ run_deferred err deferred).

Definition set_syslogConfigPath (ctx : SimpleContext) (p : string)
    : SimpleContext :=
  {| caCert := caCert ctx;
     deployerTag := deployerTag ctx;
     initDir := initDir ctx;
     dataDir := dataDir ctx;
     logDir := logDir ctx;
     syslogConfigDir := syslogConfigDir ctx;
     syslogConfigPath := p;
     stateAddrs := stateAddrs ctx;
     apiAddrs := apiAddrs ctx |}.

Definition DeployUnit (ctx : SimpleContext)
    (unitName initialPassword : string)
    : SimpleContext * error * list effect :=
  (* Check sanity. *)
  let svc := upstartService ctx unitName in
  if Installed host svc then
    returning ctx (Errorf "unit %q is already deployed" [unitName]) [] []
  else
  (* Link the current tools for use by the new agent. *)
  let tag := UnitTag unitName in
  (* The result of ChangeAgentTools goes to the named result [err] and is
     not looked at; every return below assigns [err] anew. *)
  let err := ChangeAgentTools host (dataDir ctx) tag in
  let toolsDir := ToolsDir (dataDir ctx) tag in
  let deferred := [toolsDir] in
  let done := [LinkedTools toolsDir err] in
  let stateInfo :=
    {| Addrs := stateAddrs ctx; Tag := tag; CACert := caCert ctx |} in
  let apiInfo :=
    {| Addrs := apiAddrs ctx; Tag := tag; CACert := caCert ctx |} in
  (* Prepare the agent's configuration data. *)
  let conf :=
    {| DataDir := dataDir ctx; OldPassword := initialPassword;
       StateInfo := stateInfo; APIInfo := apiInfo |} in
  match ConfWrite host conf with
  | Some e => returning ctx (Some e) deferred (done ++ [WroteConf (confDir conf) (Some e)])
  | None =>
  let done := done ++ [WroteConf (confDir conf) None] in
  let deferred := confDir conf :: deferred in
  (* Install an upstart job that runs the unit agent. *)
  let logPath := Join (logDir ctx) (tag ++ ".log")%string in
  let configDir := syslogConfigDir ctx in
  let configFileName := Sprintf "26-juju-%s.conf" [tag] in
  let configFilePath := ConfigFilePath configDir configFileName in
  match SyslogWrite host configDir configFileName with
  | Some e => returning ctx (Some e) deferred (done ++ [WroteSyslog configFilePath (Some e)])
  | None =>
  let done := done ++ [WroteSyslog configFilePath None] in
  let ctx := set_syslogConfigPath ctx configFilePath in
  let done :=
    done ++ RestartedSyslog (SyslogRestart host) ::
    match SyslogRestart host with
    | Some _ =>
        [Warned (Sprintf "installer: cannot restart syslog daemon: %v" [])]
    | None => []
    end in
  let deferred := syslogConfigPath ctx :: deferred in
  let cmd :=
    String.concat " "
      [ Join toolsDir "jujud"; "unit";
        "--data-dir"; DataDir conf;
        "--unit-name"; unitName;
        "--debug" ] in
  let uconf :=
    {| UService := svc;
       Desc := ("juju unit agent for " ++ unitName)%string;
       Cmd := cmd;
       Out := logPath |} in
  let r := UpstartInstall host uconf in
  returning ctx r deferred (done ++ [InstalledJob uconf r])
  end
  end.

(** The body of the loop of [DeployedUnits] for one directory entry. *)
Definition collect (ctx : SimpleContext) (installed : list string)
    (fi : string) : list string :=
  match FindStringSubmatch deployedRe fi with
  | [_; g1; g2; g3] =>
      if negb (String.eqb g1 (deployerTag ctx)) then installed
      else
        let unitName := (g2 ++ "/" ++ g3)%string in
        if negb (IsUnitName unitName) then installed
        else installed ++ [unitName]
  | _ => installed
  end.

Definition DeployedUnits (ctx : SimpleContext) : list string * error :=
  match ReadDir host (initDir ctx) with
  | Error err => ([], Some err)
  | Ok fis => (fold_left (collect ctx) fis [], None)
  end.

(** *** What the specification says [DeployedUnits] reports

    A file name yields the unit name [unitName] for the deployer [own]
    when it reads jujud-<tag>:unit-<name>-<number>.conf, with <tag> and
    <name> made of lower-case letters, digits and dashes and <number> of
    digits, the tag is the deployer's own, and <name>/<number> is a valid
    unit name. *)
Definition nonempty_of (cls : ascii -> bool) (s : string) : Prop :=
  chars s <> [] /\ forallb cls (chars s) = true.

Definition job_file_name (tag name number : string) : string :=
  ("jujud-" ++ tag ++ ":unit-" ++ name ++ "-" ++ number ++ ".conf")%string.

Definition recovers (own fname unitName : string) : Prop :=
  exists tag name number,
    fname = job_file_name tag name number /\
    nonempty_of lower_digit_dash tag /\
    nonempty_of lower_digit_dash name /\
    nonempty_of digit number /\
    tag = own /\
    unitName = (name ++ "/" ++ number)%string /\
    IsUnitName unitName = true.

(** The units reported for a directory listing: one per file that yields
    a unit name, in the order of the listing; every other file is
    skipped. *)
Inductive reported (own : string) : list string -> list string -> Prop :=
| reported_nil : reported own [] []
| reported_keep (f : string) (fs : list string) (u : string)
    (us : list string) :
    recovers own f u -> reported own fs us ->
    reported own (f :: fs) (u :: us)
| reported_skip (f : string) (fs us : list string) :
    (forall u, ~ recovers own f u) -> reported own fs us ->
    reported own (f :: fs) us.

(** *** What [DeployUnit] hands to its collaborators *)

(** The agent configuration written for a unit. *)
Definition agentConf (ctx : SimpleContext)
    (unitName initialPassword : string) : Conf :=
  let tag := UnitTag unitName in
  {| DataDir := dataDir ctx;
     OldPassword := initialPassword;
     StateInfo :=
       {| Addrs := stateAddrs ctx; Tag := tag; CACert := caCert ctx |};
     APIInfo :=
       {| Addrs := apiAddrs ctx; Tag := tag; CACert := caCert ctx |} |}.

(** The name and the path of the syslog configuration file of a unit. *)
Definition syslogFileName (unitName : string) : string :=
  Sprintf "26-juju-%s.conf" [UnitTag unitName].

Definition syslogFilePath (ctx : SimpleContext) (unitName : string)
    : string :=
  ConfigFilePath (syslogConfigDir ctx) (syslogFileName unitName).

(** The upstart job installed for a unit. *)
Definition jobConf (ctx : SimpleContext) (unitName : string)
    : UpstartConf :=
  let tag := UnitTag unitName in
  {| UService := upstartService ctx unitName;
     Desc := ("juju unit agent for " ++ unitName)%string;
     Cmd :=
       String.concat " "
         [ Join (ToolsDir (dataDir ctx) tag) "jujud"; "unit";
           "--data-dir"; dataDir ctx;
           "--unit-name"; unitName;
           "--debug" ];
     Out := Join (logDir ctx) (tag ++ ".log")%string |}.

(** *** [RecallUnit] *)

(** The calls of [RecallUnit] that [DeployUnit] does not make. *)
Variable recallHost : RecallHost.

Definition warn_if (r : error) (msg : string) : list recall_effect :=
  match r with
  | Some _ => [Plain (Warned msg)]
  | None => []
  end.

Definition RecallUnit (ctx : SimpleContext) (unitName : string)
    : error * list recall_effect :=
  let svc := upstartService ctx unitName in
  if negb (Installed host svc) then
    (Errorf "unit %q is not deployed" [unitName], [])
  else
  match SvcRemove recallHost svc with
  | Some err => (Some err, [RemovedJob svc (Some err)])
  | None =>
  let done := [RemovedJob svc None] in
  let tag := UnitTag unitName in
  let agentDir := AgentDir (dataDir ctx) tag in
  match OsRemoveAll recallHost agentDir with
  | Some err => (Some err, done ++ [RemovedTree agentDir (Some err)])
  | None =>
  let done := done ++ [RemovedTree agentDir None] in
  let e := OsRemove host (syslogConfigPath ctx) in
  let done :=
    done ++ Plain (Removed (syslogConfigPath ctx) e)
      :: warn_if e (Sprintf "installer: cannot remove %q: %v"
                      [syslogConfigPath ctx]) in
  let e := SyslogRestart host in
  let done :=
    done ++ Plain (RestartedSyslog e)
      :: warn_if e (Sprintf "installer: cannot restart syslog daemon: %v" [])
  in
  let toolsDir := ToolsDir (dataDir ctx) tag in
  let r := OsRemove host toolsDir in
  (r, done ++ [Plain (Removed toolsDir r)])
  end
  end.

End WithHost.

End Deployer.

(* ================================================================== *)
(** ** The supervision unit (worker/catacomb) *)
(* ================================================================== *)

Module Catacomb.
Import GoErrors.

(** A worker handed to the unit as a sub-worker: an identity and the
    terminal error its own Wait reports once it has stopped. *)
Record Worker : Type := { wid : nat; waitErr : error }.

Definition same_worker (a b : Worker) : bool := Nat.eqb (wid a) (wid b).

(** Modelled from the spec: the supervision unit (package
    worker/catacomb: Invoke, Add, Kill, Dying, ErrDying, Wait) is used by
    the unit worker but is not among the sources.  Following the
    specification's data model and component design:
    - Kill is idempotent and records its argument as the kill cause,
      the first call wins; it signals the primary task (through the
      level-triggered Dying signal) and every tracked sub-worker;
    - Add binds the lifetime of a running worker to the unit: a unit
      that is not dying registers it as a tracked child; a unit that is
      already dying tracks no new child and reports an error, and the
      worker is stopped at once;
    - the death of the primary task kills the whole unit;
    - Wait returns once the primary task and the children have stopped;
      the terminal error is the primary task's error if non-nil, else
      the first non-nil error among the sub-workers, else nil, where a
      primary task that exits with the unit's own dying error has
      exited cleanly. *)
Record Catacomb : Type := {
  dying : bool;             (* the Dying signal has fired *)
  cause : error;            (* the recorded kill cause *)
  children : list Worker;   (* tracked sub-workers, oldest first *)
  primary : option error;   (* what the primary task returned, if done *)
  turned_away : list Worker (* workers handed to Add by a dying unit *)
}.

(** Modelled from the spec: a supervision unit that has just been
    created; nothing has killed it and it tracks no sub-worker. *)
Definition fresh : Catacomb :=
  {| dying := false; cause := None; children := []; primary := None;
     turned_away := [] |}.

(** Modelled from the spec: Kill of the supervision unit, idempotent;
    the first call records the cause and fires Dying. *)
Definition Kill (err : error) (c : Catacomb) : Catacomb :=
  if dying c then c
  else {| dying := true; cause := err;
          children := children c; primary := primary c;
          turned_away := turned_away c |}.

(** Modelled from the spec: Add of the supervision unit.  The
    specification has the sub-worker added to the unit "so its lifetime
    is bound to the parent", with no code for it in the worker, and the
    loop at hand relies on that: it discards what Add returns.  A unit
    that is not dying registers [w] as a tracked child.  A unit that is
    already dying tracks no new child and reports an error; [w] does not
    go on running: it is stopped at once and kept in [turned_away].
    (The specification's remark that the caller must then stop the
    sub-worker is not what the code at hand is written against.) *)
Definition Add (w : Worker) (c : Catacomb) : Catacomb * error :=
  if dying c then
    ({| dying := dying c; cause := cause c;
        children := children c; primary := primary c;
        turned_away := turned_away c ++ [w] |}, Some ErrDying)
  else ({| dying := dying c; cause := cause c;
           children := children c ++ [w]; primary := primary c;
           turned_away := turned_away c |}, None).

(** Modelled from the spec: the level-triggered Dying signal, observed
    without blocking. *)
Definition Dying (c : Catacomb) : bool := dying c.

(** Modelled from the spec: the dying error of the unit, with which
    the primary task exits cleanly. *)
Definition ErrDying (c : Catacomb) : error := Some GoErrors.ErrDying.

(** Modelled from the spec: the primary task of the unit returned
    [res]; its death kills the whole unit. *)
Definition Finish (res : error) (c : Catacomb) : Catacomb :=
  let c' := Kill res c in
  {| dying := dying c'; cause := cause c';
     children := children c'; primary := Some res;
     turned_away := turned_away c' |}.

(** Modelled from the spec: the lifetime of [w] is bound to the unit:
    it is a tracked child, or was handed to Add by the dying unit. *)
Definition bound (c : Catacomb) (w : Worker) : bool :=
  existsb (same_worker w) (children c)
  || existsb (same_worker w) (turned_away c).

(** Modelled from the spec: the kill signal of the unit reaches the
    sub-workers bound to it; [w] has been told to stop by the unit. *)
Definition stopped (c : Catacomb) (w : Worker) : bool :=
  dying c && bound c w.

(** Modelled from the spec: the error of the primary task itself; an
    exit with the dying error of the unit is a clean exit. *)
Definition own_error (res : error) : error :=
  match res with
  | Some GoErrors.ErrDying => None
  | _ => res
  end.

Fixpoint first_error (es : list error) : error :=
  match es with
  | [] => None
  | Some e :: _ => Some e
  | None :: es' => first_error es'
  end.

(** Modelled from the spec: Wait of the supervision unit.  [None]:
    Wait still blocks; [Some e]: Wait returns [e], the error of the
    primary task if non-nil, else the first non-nil error among the
    sub-workers, else nil. *)
Definition Wait (c : Catacomb) : option error :=
  match primary c with
  | None => None
  | Some res =>
      match own_error res with
      | Some e => Some (Some e)
      | None => Some (first_error (map waitErr (children c)))
      end
  end.

End Catacomb.

(* ================================================================== *)
(** ** The unit worker of the CAAS unit provisioner *)
(* ================================================================== *)

Module UnitWorker.
Import GoErrors.
Import Catacomb(Worker, Catacomb).

(** The ContainerSpecGetter interface.  An implementation carries its
    own state [G], threaded through every call. *)
Class ContainerSpecGetter (G : Type) : Type := {
  WatchContainerSpec : G -> string -> result Worker * G;
  ContainerSpec : G -> string -> result string * G
}.

(** The ContainerBroker interface, over the parsed container spec. *)
Class ContainerBroker (Spec B : Type) : Type := {
  EnsureUnit : B -> string -> string -> Spec -> error * B
}.

Record unitWorker (G B : Type) : Type := {
  catacomb : Catacomb;
  application : string;
  unit : string;
  broker : B;
  containerSpecGetter : G
}.
Arguments catacomb {G B} _.
Arguments application {G B} _.
Arguments unit {G B} _.
Arguments broker {G B} _.
Arguments containerSpecGetter {G B} _.

(** What the worker did, as seen from outside. *)
Inductive call (Spec : Type) : Type :=
| CallWatchContainerSpec (unit : string) (r : result Worker)
| CallAdd (cw : Worker) (r : error)
| RecvDying
| RecvChange (ok : bool)
| CallContainerSpec (unit : string) (r : result string)
| CallParseContainerSpec (specStr : string) (r : result Spec)
| CallEnsureUnit (application unit : string) (spec : Spec) (r : error)
| Debugf (msg : string).
Arguments CallWatchContainerSpec {Spec} _ _.
Arguments CallAdd {Spec} _ _.
Arguments RecvDying {Spec}.
Arguments RecvChange {Spec} _.
Arguments CallContainerSpec {Spec} _ _.
Arguments CallParseContainerSpec {Spec} _ _.
Arguments CallEnsureUnit {Spec} _ _ _ _.
Arguments Debugf {Spec} _.

(** Where the goroutine running [loop] is. *)
Inductive position : Type :=
| NotStarted                 (* Invoke has returned, loop has not run yet *)
| Watching (cw : Worker)     (* blocked in the select statement *)
| Returned (e : error).      (* loop has returned e *)

(** What happens next to the worker: a Kill from another goroutine, or
    its own goroutine moving on. *)
Inductive input : Type :=
| InKill                (* w.Kill() *)
| InStart               (* loop runs up to its select statement *)
| InDying               (* select: case <-w.catacomb.Dying() *)
| InChange (ok : bool). (* select: case _, ok := <-cw.Changes() *)

Section Loop.

Context {Spec G B : Type}.
Context {getter : ContainerSpecGetter G} {applier : ContainerBroker Spec B}.

(** caas.ParseContainerSpec, which is not part of the sources at hand. *)
Variable ParseContainerSpec : string -> result Spec.

Record state : Type := {
  worker : unitWorker G B;
  at_ : position;
  calls : list (call Spec)     (* most recent first *)
}.

Definition with_catacomb (w : unitWorker G B) (c : Catacomb)
    : unitWorker G B :=
  {| catacomb := c; application := application w; unit := unit w;
     broker := broker w; containerSpecGetter := containerSpecGetter w |}.

Definition with_getter (w : unitWorker G B) (g : G) : unitWorker G B :=
  {| catacomb := catacomb w; application := application w; unit := unit w;
     broker := broker w; containerSpecGetter := g |}.

Definition with_broker (w : unitWorker G B) (b : B) : unitWorker G B :=
  {| catacomb := catacomb w; application := application w; unit := unit w;
     broker := b; containerSpecGetter := containerSpecGetter w |}.

(** newUnitWorker: Invoke on a fresh supervision unit cannot fail; the
    loop runs in a goroutine of its own. *)
Definition newUnitWorker (application unit : string) (broker : B)
    (containerSpecGetter : G) : state :=
  {| worker :=
       {| catacomb := Catacomb.fresh;
          application := application;
          unit := unit;
          broker := broker;
          containerSpecGetter := containerSpecGetter |};
     at_ := NotStarted;
     calls := [] |}.

(** Kill is part of the worker.Worker interface. *)
Definition Kill (st : state) : state :=
  {| worker :=
       with_catacomb (worker st) (Catacomb.Kill None (catacomb (worker st)));
     at_ := at_ st;
     calls := calls st |}.

(** Wait is part of the worker.Worker interface. *)
Definition Wait (st : state) : option error :=
  Catacomb.Wait (catacomb (worker st)).

(** [loop] executes [return e]: the goroutine started by Invoke hands
    the result to the supervision unit. *)
Definition returns (w : unitWorker G B) (log : list (call Spec))
    (e : error) : state :=
  {| worker := with_catacomb w (Catacomb.Finish e (catacomb w));
     at_ := Returned e;
     calls := log |}.

(** [loop], from its entry to the select statement. *)
Definition start (st : state) : state :=
  let w := worker st in
  let '(r, g) := WatchContainerSpec (containerSpecGetter w) (unit w) in
  let w := with_getter w g in
  let log := CallWatchContainerSpec (unit w) r :: calls st in
  match r with
  | Error err => returns w log (Trace (Some err))
  | Ok cw =>
      let '(c, r) := Catacomb.Add cw (catacomb w) in
      {| worker := with_catacomb w c;
         at_ := Watching cw;
         calls := CallAdd cw r :: log |}
  end.

(** [loop], the body run for a notification received from an open
    channel. *)
Definition reconcile (st : state) (cw : Worker) : state :=
  let w := worker st in
  let log := RecvChange true :: calls st in
  let '(r, g) := ContainerSpec (containerSpecGetter w) (unit w) in
  let w := with_getter w g in
  let log := CallContainerSpec (unit w) r :: log in
  match r with
  | Error err =>
      if IsNotFound (Some err) then
        (* No container spec defined for this unit yet;
           wait for one to be set. *)
        {| worker := w; at_ := Watching cw; calls := log |}
      else returns w log (Trace (Some err))
  | Ok specStr =>
      let p := ParseContainerSpec specStr in
      let log := CallParseContainerSpec specStr p :: log in
      match p with
      | Error err =>
          returns w log (Annotate (Some err) "cannot parse container spec")
      | Ok spec =>
          let '(r, b) :=
            EnsureUnit (broker w) (application w) (unit w) spec in
          let w := with_broker w b in
          let log := CallEnsureUnit (application w) (unit w) spec r :: log in
          match r with
          | Some err => returns w log (Trace (Some err))
          | None =>
              {| worker := w; at_ := Watching cw;
                 calls := Debugf "created/updated unit %s" :: log |}
          end
      end
  end.

(** One move of the worker.  [None]: the move cannot happen in [st]
    (the goroutine is elsewhere, or the Dying signal has not fired). *)
Definition step (st : state) (i : input) : option state :=
  match i, at_ st with
  | InKill, _ => Some (Kill st)
  | InStart, NotStarted => Some (start st)
  | InDying, Watching _ =>
      if Catacomb.Dying (catacomb (worker st)) then
        Some (returns (worker st) (RecvDying :: calls st)
                (Catacomb.ErrDying (catacomb (worker st))))
      else None
  | InChange ok, Watching cw =>
      if ok then Some (reconcile st cw)
      else Some (returns (worker st) (RecvChange false :: calls st)
                   (Some (New "watcher closed channel")))
  | _, _ => None
  end.

Fixpoint run (st : state) (inputs : list input) : option state :=
  match inputs with
  | [] => Some st
  | i :: rest =>
      match step st i with
      | Some st' => run st' rest
      | None => None
      end
  end.

(** The four failures that C2 lists as ending the loop. *)
Definition listed_failure (c : call Spec) : bool :=
  match c with
  | RecvChange false => true
  | CallContainerSpec _ (Error e) => negb (IsNotFound (Some e))
  | CallParseContainerSpec _ (Error _) => true
  | CallEnsureUnit _ _ _ (Some _) => true
  | _ => false
  end.

(** The failures after which the loop does end: the above, and a failed
    subscription. *)
Definition escalating (c : call Spec) : bool :=
  match c with
  | CallWatchContainerSpec _ (Error _) => true
  | _ => listed_failure c
  end.

Definition is_ensure (c : call Spec) : bool :=
  match c with
  | CallEnsureUnit _ _ _ _ => true
  | _ => false
  end.

(** The fetches of a log, and the notifications received from an open
    channel. *)
Definition is_fetch (c : call Spec) : bool :=
  match c with
  | CallContainerSpec _ _ => true
  | _ => false
  end.

Definition is_live_change (c : call Spec) : bool :=
  match c with
  | RecvChange true => true
  | _ => false
  end.

(** The calls that make or register the subscription. *)
Definition is_subscribing (c : call Spec) : bool :=
  match c with
  | CallWatchContainerSpec _ _ => true
  | CallAdd _ _ => true
  | _ => false
  end.

(** The unit a call made to the getter or the broker is about, if the
    call names one. *)
Definition unit_of (c : call Spec) : option string :=
  match c with
  | CallWatchContainerSpec u _ => Some u
  | CallContainerSpec u _ => Some u
  | CallEnsureUnit _ u _ _ => Some u
  | _ => None
  end.

(** How the log of a worker for [u] begins, by where its loop is. *)
Definition subscribed_once (u : string) (st : state) : Prop :=
  match at_ st with
  | NotStarted => calls st = []
  | Watching cw =>
      exists newer r,
        calls st = newer ++ [CallAdd cw r; CallWatchContainerSpec u (Ok cw)]
        /\ existsb is_subscribing newer = false
  | Returned _ =>
      (exists e, calls st = [CallWatchContainerSpec u (Error e)]) \/
      (exists newer cw r,
         calls st = newer ++ [CallAdd cw r; CallWatchContainerSpec u (Ok cw)]
         /\ existsb is_subscribing newer = false)
  end.

(** The number of EnsureUnit calls in a log. *)
Definition ensure_count (log : list (call Spec)) : nat :=
  List.length (filter is_ensure log).

(** What the worker fetches when notified in [st]. *)
Definition fetched (st : state) : result string :=
  fst (ContainerSpec (containerSpecGetter (worker st)) (unit (worker st))).

(** The notification received in [st] leads to a successful
    reconciliation: fetch, parse and EnsureUnit all succeed. *)
Definition reconcile_succeeds (st : state) : bool :=
  let w := worker st in
  match fst (ContainerSpec (containerSpecGetter w) (unit w)) with
  | Ok specStr =>
      match ParseContainerSpec specStr with
      | Ok spec =>
          is_nil (fst (EnsureUnit (broker w) (application w) (unit w) spec))
      | Error _ => false
      end
  | Error _ => false
  end.

(** The next [n] notifications all lead to a successful reconciliation. *)
Fixpoint cycles_succeed (n : nat) (st : state) (cw : Worker) : bool :=
  match n with
  | O => true
  | S n' => reconcile_succeeds st && cycles_succeed n' (reconcile st cw) cw
  end.

(** Every EnsureUnit call of a log is made for [app] and [u], right
    after a successful fetch for [u] whose payload parses to the spec
    handed to the call. *)
Fixpoint justified (app u : string) (log : list (call Spec)) : Prop :=
  match log with
  | [] => True
  | CallEnsureUnit a u' spec _ :: rest =>
      a = app /\ u' = u /\
      (exists specStr older,
         rest = CallParseContainerSpec specStr (Ok spec)
                  :: CallContainerSpec u (Ok specStr) :: older /\
         ParseContainerSpec specStr = Ok spec) /\
      justified app u rest
  | _ :: rest => justified app u rest
  end.

(** How far the loop has come, against what it has met so far. *)
Definition settled (st : state) : Prop :=
  match at_ st with
  | NotStarted => calls st = []
  | Watching _ => existsb escalating (calls st) = false
  | Returned e =>
      (e = Some ErrDying /\ existsb escalating (calls st) = false /\
       Catacomb.Dying (catacomb (worker st)) = true /\
       In RecvDying (calls st)) \/
      (exists e', e = Some e' /\ e' <> ErrDying /\
                  existsb escalating (calls st) = true)
  end.

End Loop.

Arguments state Spec G B : clear implicits.

End UnitWorker.

(* ================================================================== *)
(** ** Test doubles *)
(* ================================================================== *)

Module Fixtures.
Import GoErrors Chars.
Import Catacomb(Worker).
Import UnitWorker.

(** A getter that answers from a script and then keeps giving
    [fallback]. *)
Record scriptedGetter : Type := {
  subscription : result Worker;
  answers : list (result string);
  fallback : result string
}.

#[export] Instance scripted_getter : ContainerSpecGetter scriptedGetter := {
  WatchContainerSpec g _ := (subscription g, g);
  ContainerSpec g _ :=
    match answers g with
    | [] => (fallback g, g)
    | a :: rest =>
        (a, {| subscription := subscription g; answers := rest;
               fallback := fallback g |})
    end
}.

(** A broker that replies from a script, then succeeds, and keeps what
    it was asked to ensure. *)
Record scriptedBroker : Type := {
  replies : list error;
  ensured : list (string * string * string)
}.

#[export] Instance scripted_broker : ContainerBroker string scriptedBroker := {
  EnsureUnit b app u spec :=
    match replies b with
    | [] => (None, {| replies := []; ensured := ensured b ++ [(app, u, spec)] |})
    | r :: rest =>
        (r, {| replies := rest; ensured := ensured b ++ [(app, u, spec)] |})
    end
}.

(** A parser that rejects the empty payload only. *)
Definition parseSpec (specStr : string) : result string :=
  if String.eqb specStr "" then Error (New "empty container spec")
  else Ok specStr.

Definition watcher0 : Worker := {| Catacomb.wid := 7; Catacomb.waitErr := None |}.

Definition steadyGetter : scriptedGetter :=
  {| subscription := Ok watcher0; answers := []; fallback := Ok "image: gitlab" |}.

Definition quietBroker : scriptedBroker := {| replies := []; ensured := [] |}.

(** The first notification finds no spec, the second a spec, the third
    a payload that does not parse. *)
Definition lateGetter : scriptedGetter :=
  {| subscription := Ok watcher0;
     answers := [Error (NotFoundf "container spec"); Ok "image: gitlab"; Ok ""];
     fallback := Error (NotFoundf "container spec") |}.

(** A getter whose subscription fails. *)
Definition deafGetter : scriptedGetter :=
  {| subscription := Error (New "connection is shut down");
     answers := []; fallback := Error (NotFoundf "container spec") |}.

(** A worker over the steady getter, blocked in its select statement. *)
Definition steadyWorker : state string scriptedGetter scriptedBroker :=
  start (newUnitWorker "gitlab" "gitlab/0" quietBroker steadyGetter).

(** A worker over the late getter: just started, and after the second
    notification. *)
Definition lateWorker : state string scriptedGetter scriptedBroker :=
  start (newUnitWorker "gitlab" "gitlab/0" quietBroker lateGetter).

Definition lateWorker2 : state string scriptedGetter scriptedBroker :=
  reconcile parseSpec (reconcile parseSpec lateWorker watcher0) watcher0.

(** The late worker after the third notification, whose payload does
    not parse. *)
Definition lateWorker3 : state string scriptedGetter scriptedBroker :=
  reconcile parseSpec lateWorker2 watcher0.

(** The steady worker, killed and then notified once more. *)
Definition killedWorker : state string scriptedGetter scriptedBroker :=
  reconcile parseSpec (Kill steadyWorker) watcher0.



(** A broker whose first EnsureUnit fails, and a worker over it. *)
Definition failingBroker : scriptedBroker :=
  {| replies := [Some (New "pods is forbidden")]; ensured := [] |}.

Definition brokenWorker : state string scriptedGetter scriptedBroker :=
  start (newUnitWorker "gitlab" "gitlab/0" failingBroker steadyGetter).

(** A getter whose first fetch fails for good, and a worker over it. *)
Definition flakyGetter : scriptedGetter :=
  {| subscription := Ok watcher0;
     answers := [Error (Traced (New "connection is shut down"))];
     fallback := Ok "image: gitlab" |}.

Definition flakyWorker : state string scriptedGetter scriptedBroker :=
  start (newUnitWorker "gitlab" "gitlab/0" quietBroker flakyGetter).

(** A stand-in for state.IsUnitName: <service>/<number>, where the
    service begins with a lower-case letter and is made of dash-separated
    runs of lower-case letters and digits, each with a letter in it, and
    the number is made of digits. *)
Fixpoint service_chars (has_letter : bool) (s : list ascii) : bool :=
  match s with
  | [] => has_letter
  | c :: s' =>
      if Ascii.eqb c "-"%char then has_letter && service_chars false s'
      else if lower c then service_chars true s'
      else digit c && service_chars has_letter s'
  end.

Fixpoint split_unit (s acc : list ascii) : option (list ascii * list ascii) :=
  match s with
  | [] => None
  | c :: s' =>
      if Ascii.eqb c "/"%char then Some (acc, s')
      else split_unit s' (acc ++ [c])
  end.

Definition sampleIsUnitName (s : string) : bool :=
  match split_unit (chars s) [] with
  | Some (c :: service, d :: number) =>
      lower c && service_chars true service && forallb digit (d :: number)
  | _ => false
  end.

Definition host0 : Deployer.Host :=
  {| Deployer.Installed := fun _ => false;
     Deployer.ChangeAgentTools := fun _ _ => None;
     Deployer.ConfWrite := fun _ => None;
     Deployer.SyslogWrite := fun _ _ => None;
     Deployer.SyslogRestart := None;
     Deployer.UpstartInstall := fun _ => Some (New "cannot start job");
     Deployer.OsRemove := fun _ => None;
     Deployer.ReadDir := fun dir =>
       if String.eqb dir "/etc/init" then
         Ok [ "jujud-machine-0:unit-mysql-0.conf";
              "jujud-machine-0:unit-wordpress-12.conf";
              "jujud-machine-1:unit-wordpress-3.conf";
              "jujud-machine-0:unit-wordpress-12.conf.bak";
              "jujud-machine-0:unit-foo-1-2.conf";
              "ssh.conf" ]
       else Error (New "no such file or directory") |}.

(** The local system once the job of a unit is installed. *)
Definition host1 : Deployer.Host :=
  {| Deployer.Installed := fun _ => true;
     Deployer.ChangeAgentTools := fun _ _ => None;
     Deployer.ConfWrite := fun _ => None;
     Deployer.SyslogWrite := fun _ _ => None;
     Deployer.SyslogRestart := Some (New "rsyslog is not running");
     Deployer.UpstartInstall := fun _ => None;
     Deployer.OsRemove := fun _ => None;
     Deployer.ReadDir := fun _ => Ok ["jujud-machine-0:unit-mysql-0.conf"] |}.

(** A local system on which a deployment goes through, although the
    tools cannot be linked and syslog cannot be restarted. *)
Definition host2 : Deployer.Host :=
  {| Deployer.Installed := fun _ => false;
     Deployer.ChangeAgentTools := fun _ _ => Some (New "no tools found");
     Deployer.ConfWrite := fun _ => None;
     Deployer.SyslogWrite := fun _ _ => None;
     Deployer.SyslogRestart := Some (New "rsyslog is not running");
     Deployer.UpstartInstall := fun _ => None;
     Deployer.OsRemove := fun _ => None;
     Deployer.ReadDir := fun _ => Ok [] |}.

(** The listing of [host0] without the job of the other deployer. *)
Definition host0' : Deployer.Host :=
  {| Deployer.Installed := fun _ => false;
     Deployer.ChangeAgentTools := fun _ _ => None;
     Deployer.ConfWrite := fun _ => None;
     Deployer.SyslogWrite := fun _ _ => None;
     Deployer.SyslogRestart := None;
     Deployer.UpstartInstall := fun _ => Some (New "cannot start job");
     Deployer.OsRemove := fun _ => None;
     Deployer.ReadDir := fun _ =>
       Ok [ "jujud-machine-0:unit-mysql-0.conf";
            "jujud-machine-0:unit-wordpress-12.conf";
            "jujud-machine-0:unit-wordpress-12.conf.bak";
            "jujud-machine-0:unit-foo-1-2.conf";
            "ssh.conf" ] |}.

Definition recallHost0 : Deployer.RecallHost :=
  {| Deployer.SvcRemove := fun _ => None;
     Deployer.OsRemoveAll := fun _ => None |}.

Definition ctx0 : Deployer.SimpleContext :=
  Deployer.NewSimpleContext "" "" "machine-0" ["localhost:37017"]
    ["localhost:17070"].

Definition unitTag0 (unitName : string) : string :=
  ("unit-" ++ text (map (fun c => if Ascii.eqb c "/"%char then "-"%char else c)
                       (chars unitName)))%string.

Definition join0 (a b : string) : string := (a ++ "/" ++ b)%string.

Definition toolsDir0 (dataDir tag : string) : string :=
  join0 dataDir (join0 "tools" tag).

Definition agentDir0 (dataDir tag : string) : string :=
  join0 dataDir (join0 "agents" tag).

Definition configFilePath0 (dir name : string) : string :=
  join0 (if String.eqb dir "" then "/etc/rsyslog.d" else dir) name.

(** A stand-in for fmt.Sprintf: every verb is replaced by the next
    argument as it is. *)
Fixpoint sprintf0 (format : string) (args : list string) : string :=
  match format with
  | String "%" (String _ rest) =>
      match args with
      | a :: args' => (a ++ sprintf0 rest args')%string
      | [] => sprintf0 rest []
      end
  | String c rest => String c (sprintf0 rest args)
  | EmptyString => EmptyString
  end.

End Fixtures.

(* ================================================================== *)
(** ** The gate (worker/gate), as used by manifolds_test.go *)
(* ================================================================== *)

Module Gate.

(** Modelled from the spec: the gate (package worker/gate) is exercised
    by [assertGate] but is not among the sources.  Following the
    specification: two states, Locked and Unlocked; a new gate is Locked;
    Unlock is idempotent and flips Locked to Unlocked; the Unlocked
    signal of the waiter is fired exactly in the Unlocked state. *)
Inductive gate : Type := Locked | Unlocked.

(** Modelled from the spec: a gate starts Locked. *)
Definition NewGate : gate := Locked.

(** Modelled from the spec: Unlock is idempotent and flips Locked to
    Unlocked. *)
Definition Unlock (g : gate) : gate := Unlocked.

(** Modelled from the spec: the Unlocked signal of the waiter, as a
    non-blocking receive on waiter.Unlocked() sees it. *)
Definition fired (g : gate) : bool :=
  match g with
  | Unlocked => true
  | Locked => false
  end.

Inductive verdict : Type :=
| Passed
| Fatalf (msg : string).

(** assertGate of manifolds_test.go, on the gate shared by the manifold's
    waiter and the unlocker. *)
Definition assertGate (g : gate) : verdict :=
  if fired g then Fatalf "expected gate to be locked"
  else
    let g := Unlock g in
    if fired g then Passed
    else Fatalf "expected gate to be unlocked".

(** What the owner and the dependents of a gate can do with it. *)
Inductive op : Type :=
| OpUnlock      (* unlocker.Unlock() *)
| OpObserve.    (* select on waiter.Unlocked() *)

(** Runs [ops] on [g]; returns what each observation saw, in order, and
    the final gate. *)
Fixpoint observe (ops : list op) (g : gate) : list bool * gate :=
  match ops with
  | [] => ([], g)
  | OpUnlock :: ops' => observe ops' (Unlock g)
  | OpObserve :: ops' =>
      let '(seen, g') := observe ops' g in (fired g :: seen, g')
  end.

Definition is_observe (o : op) : bool :=
  match o with
  | OpObserve => true
  | OpUnlock => false
  end.

End Gate.

(* ================================================================== *)
(** * Theorems *)
(* ================================================================== *)

(** ** Strings *)

Section CharFacts.
Import Chars.

Lemma chars_append (a b : string) :
  chars (a ++ b)%string = chars a ++ chars b.
Proof.
  unfold chars. induction a as [|c a IH]; simpl; [reflexivity|].
  now rewrite IH.
Qed.

Lemma text_chars (s : string) : text (chars s) = s.
Proof. apply string_of_list_ascii_of_string. Qed.

Lemma chars_text (l : list ascii) : chars (text l) = l.
Proof. apply list_ascii_of_string_of_list_ascii. Qed.

Lemma chars_inj (a b : string) : chars a = chars b -> a = b.
Proof.
  intro H. rewrite <- (text_chars a), <- (text_chars b). now rewrite H.
Qed.

(** A run of characters of a class followed by a character outside of
    it can be read off a string in one way only. *)
Lemma class_run_unique (cls : ascii -> bool) :
  forall (g g' : list ascii) (c c' : ascii) (r r' : list ascii),
    forallb cls g = true -> forallb cls g' = true ->
    cls c = false -> cls c' = false ->
    g ++ c :: r = g' ++ c' :: r' ->
    g = g' /\ c = c' /\ r = r'.
Proof.
  induction g as [|x g IH]; intros [|y g'] c c' r r' Hg Hg' Hc Hc' E;
    simpl in *.
  - inversion E; auto.
  - inversion E; subst. apply andb_true_iff in Hg' as [Hy _]. congruence.
  - inversion E; subst. apply andb_true_iff in Hg as [Hx _]. congruence.
  - inversion E; subst.
    apply andb_true_iff in Hg as [_ Hg].
    apply andb_true_iff in Hg' as [_ Hg'].
    destruct (IH g' c c' r r' Hg Hg' Hc Hc' H1) as (-> & -> & ->); auto.
Qed.

Lemma forallb_rev {A : Type} (p : A -> bool) (l : list A) :
  forallb p (rev l) = forallb p l.
Proof.
  induction l as [|a l IH]; simpl; [reflexivity|].
  rewrite forallb_app, IH. simpl. rewrite andb_true_r. apply andb_comm.
Qed.

(** The same, for a run that ends the string: name, dash, number. *)
Lemma class_suffix_unique (cls : ascii -> bool) :
  forall (a a' g g' : list ascii) (c : ascii),
    forallb cls g = true -> forallb cls g' = true -> cls c = false ->
    a ++ c :: g = a' ++ c :: g' ->
    a = a' /\ g = g'.
Proof.
  intros a a' g g' c Hg Hg' Hc E.
  apply (f_equal (@rev ascii)) in E.
  rewrite !rev_app_distr in E. simpl in E. rewrite <- !app_assoc in E.
  simpl in E.
  destruct (class_run_unique cls (rev g) (rev g') c c (rev a) (rev a'))
    as (E1 & _ & E2); auto; try (rewrite forallb_rev; assumption).
  split.
  - rewrite <- (rev_involutive a), <- (rev_involutive a'). now rewrite E2.
  - rewrite <- (rev_involutive g), <- (rev_involutive g'). now rewrite E1.
Qed.

End CharFacts.

(** ** The matcher of [deployedRe] *)

Section MatcherFacts.
Import Chars Deployer.

Lemma strip_prefix_sound (p : list ascii) :
  forall s s', strip_prefix p s = Some s' -> s = p ++ s'.
Proof.
  induction p as [|a p IH]; intros [|b s] s' H; simpl in *;
    try congruence.
  destruct (Ascii.eqb a b) eqn:E; [|discriminate].
  apply Ascii.eqb_eq in E. subst b. f_equal. now apply IH.
Qed.

Lemma strip_prefix_complete (p s' : list ascii) :
  strip_prefix p (p ++ s') = Some s'.
Proof.
  induction p as [|a p IH]; simpl; [reflexivity|].
  now rewrite Ascii.eqb_refl.
Qed.

Lemma group_plus_sound {R : Type} (cls : ascii -> bool) :
  forall (s acc : list ascii) (k : list ascii -> list ascii -> option R)
         (r : R),
    group_plus cls s acc k = Some r ->
    exists g rest,
      g <> [] /\ forallb cls g = true /\ s = g ++ rest /\
      k (acc ++ g) rest = Some r.
Proof.
  induction s as [|c s IH]; intros acc k r H; simpl in H; [discriminate|].
  destruct (cls c) eqn:Hc; [|discriminate].
  destruct (group_plus cls s (acc ++ [c]) k) as [r'|] eqn:Hrec.
  - injection H as ->.
    destruct (IH _ _ _ Hrec) as (g & rest & _ & Hg & -> & Hk).
    exists (c :: g), rest. repeat split.
    + discriminate.
    + simpl. now rewrite Hc.
    + now rewrite <- app_assoc in Hk.
  - exists [c], s. repeat split.
    + discriminate.
    + simpl. now rewrite Hc.
    + assumption.
Qed.

Lemma group_plus_complete {R : Type} (cls : ascii -> bool) :
  forall (g rest acc : list ascii)
         (k : list ascii -> list ascii -> option R) (r : R),
    g <> [] -> forallb cls g = true ->
    k (acc ++ g) rest = Some r ->
    exists r', group_plus cls (g ++ rest) acc k = Some r'.
Proof.
  induction g as [|c g IH]; intros rest acc k r Hne Hg Hk; [congruence|].
  simpl in Hg. apply andb_true_iff in Hg as [Hc Hg].
  simpl. rewrite Hc.
  destruct (group_plus cls (g ++ rest) (acc ++ [c]) k) as [r'|] eqn:Hrec.
  - now exists r'.
  - destruct g as [|d g].
    + exists r. exact Hk.
    + destruct (IH rest (acc ++ [c]) k r) as [r' Hr'];
        [discriminate | assumption | now rewrite <- app_assoc |].
      congruence.
Qed.

Lemma match_items_lit (l : string) (re : list regex_item)
    (s : list ascii) (caps r : list string) :
  match_items (Lit l :: re) s caps = Some r ->
  exists s', s = chars l ++ s' /\ match_items re s' caps = Some r.
Proof.
  simpl. destruct (strip_prefix (chars l) s) as [s'|] eqn:E; [|discriminate].
  intro H. exists s'. split; [now apply strip_prefix_sound | assumption].
Qed.

Lemma match_items_group (cls : ascii -> bool) (re : list regex_item)
    (s : list ascii) (caps r : list string) :
  match_items (Group cls :: re) s caps = Some r ->
  exists g rest,
    g <> [] /\ forallb cls g = true /\ s = g ++ rest /\
    match_items re rest (text g :: caps) = Some r.
Proof.
  simpl. intro H. apply group_plus_sound in H.
  destruct H as (g & rest & Hne & Hg & -> & Hk). now exists g, rest.
Qed.

Lemma match_items_lit_complete (l : string) (re : list regex_item)
    (s' : list ascii) (caps : list string) :
  match_items (Lit l :: re) (chars l ++ s') caps = match_items re s' caps.
Proof. simpl. now rewrite strip_prefix_complete. Qed.

Lemma match_items_group_complete (cls : ascii -> bool)
    (re : list regex_item) (g rest : list ascii) (caps r : list string) :
  g <> [] -> forallb cls g = true ->
  match_items re rest (text g :: caps) = Some r ->
  exists r', match_items (Group cls :: re) (g ++ rest) caps = Some r'.
Proof.
  intros Hne Hg Hk. simpl.
  apply (group_plus_complete cls g rest []
           (fun g0 rest0 => match_items re rest0 (text g0 :: caps)) r);
    assumption.
Qed.

(** The characters of a well-formed job file name. *)
Definition job_chars (g1 g2 g3 : list ascii) : list ascii :=
  chars "jujud-" ++ g1 ++ chars ":unit-" ++ g2 ++ chars "-" ++ g3
    ++ chars ".conf".

Lemma chars_job_file_name (tag name number : string) :
  chars (job_file_name tag name number) =
  job_chars (chars tag) (chars name) (chars number).
Proof.
  unfold job_file_name, job_chars. now rewrite !chars_append.
Qed.

(** Whatever the matcher returns is a reading of the file name. *)
Lemma deployedRe_sound (s : list ascii) (r : list string) :
  match_items deployedRe s [] = Some r ->
  exists g1 g2 g3,
    r = [text g1; text g2; text g3] /\ s = job_chars g1 g2 g3 /\
    (g1 <> [] /\ forallb lower_digit_dash g1 = true) /\
    (g2 <> [] /\ forallb lower_digit_dash g2 = true) /\
    (g3 <> [] /\ forallb digit g3 = true).
Proof.
  unfold deployedRe. intro H.
  apply match_items_lit in H as (s1 & -> & H).
  apply match_items_group in H as (g1 & s2 & N1 & C1 & -> & H).
  apply match_items_lit in H as (s3 & -> & H).
  apply match_items_group in H as (g2 & s4 & N2 & C2 & -> & H).
  apply match_items_lit in H as (s5 & -> & H).
  apply match_items_group in H as (g3 & s6 & N3 & C3 & -> & H).
  apply match_items_lit in H as (s7 & -> & H).
  simpl in H. destruct s7; [|discriminate]. injection H as <-.
  exists g1, g2, g3. unfold job_chars.
  rewrite app_nil_r. repeat split; auto.
Qed.

(** A file name that can be read is matched. *)
Lemma deployedRe_complete (g1 g2 g3 : list ascii) :
  g1 <> [] -> forallb lower_digit_dash g1 = true ->
  g2 <> [] -> forallb lower_digit_dash g2 = true ->
  g3 <> [] -> forallb digit g3 = true ->
  exists r, match_items deployedRe (job_chars g1 g2 g3) [] = Some r.
Proof.
  intros N1 C1 N2 C2 N3 C3. unfold deployedRe, job_chars.
  rewrite match_items_lit_complete.
  destruct (match_items_group_complete digit [Lit ".conf"] g3
              (chars ".conf") [text g2; text g1]
              (rev [text g3; text g2; text g1]) N3 C3) as [r3 H3].
  { rewrite <- (app_nil_r (chars ".conf")).
    now rewrite match_items_lit_complete. }
  destruct (match_items_group_complete lower_digit_dash
              [Lit "-"; Group digit; Lit ".conf"] g2
              (chars "-" ++ g3 ++ chars ".conf") [text g1] r3 N2 C2)
    as [r2 H2].
  { now rewrite match_items_lit_complete. }
  apply (match_items_group_complete lower_digit_dash _ g1 _ [] r2 N1 C1).
  now rewrite match_items_lit_complete.
Qed.

End MatcherFacts.

(** ** [DeployedUnits] *)

Section DeployedUnitsFacts.
Import GoErrors Chars Deployer.

Variable IsUnitName : string -> bool.
Variable host : Host.

(** A job file name has one reading only. *)
Lemma job_chars_unique (g1 g2 g3 h1 h2 h3 : list ascii) :
  forallb lower_digit_dash g1 = true -> forallb lower_digit_dash h1 = true ->
  forallb digit g3 = true -> forallb digit h3 = true ->
  job_chars g1 g2 g3 = job_chars h1 h2 h3 ->
  g1 = h1 /\ g2 = h2 /\ g3 = h3.
Proof.
  intros G1 H1 G3 H3 E. unfold job_chars in E.
  apply app_inv_head in E.
  change (chars ":unit-") with (":"%char :: chars "unit-") in E.
  simpl app in E.
  apply class_run_unique with (cls := lower_digit_dash) in E; auto.
  destruct E as (-> & _ & E). split; [reflexivity|].
  change ("u"%char :: "n"%char :: "i"%char :: "t"%char :: "-"%char :: ?x)
    with (chars "unit-" ++ x) in E.
  assert (E' : (g2 ++ "-"%char :: g3) ++ chars ".conf"
               = (h2 ++ "-"%char :: h3) ++ chars ".conf").
  { rewrite <- !app_assoc. simpl.
    injection E as E. exact E. }
  apply app_inv_tail in E'.
  apply class_suffix_unique with (cls := digit) in E'; auto.
Qed.

Lemma nonempty_of_chars (cls : ascii -> bool) (g : list ascii) :
  g <> [] -> forallb cls g = true -> nonempty_of cls (text g).
Proof. intros N C. unfold nonempty_of. now rewrite chars_text. Qed.

(** [FindStringSubmatch deployedRe] yields four strings exactly for the
    job file names, and then the groups are the parts of the name. *)
Lemma FindStringSubmatch_deployedRe (f : string) :
  (exists tag name number,
     FindStringSubmatch deployedRe f = [f; tag; name; number] /\
     f = job_file_name tag name number /\
     nonempty_of lower_digit_dash tag /\
     nonempty_of lower_digit_dash name /\
     nonempty_of digit number) \/
  (FindStringSubmatch deployedRe f = [] /\
   forall tag name number,
     nonempty_of lower_digit_dash tag ->
     nonempty_of lower_digit_dash name ->
     nonempty_of digit number ->
     f <> job_file_name tag name number).
Proof.
  unfold FindStringSubmatch.
  destruct (match_items deployedRe (chars f) []) as [r|] eqn:M.
  - left. apply deployedRe_sound in M.
    destruct M as (g1 & g2 & g3 & -> & E & (N1 & C1) & (N2 & C2) & (N3 & C3)).
    exists (text g1), (text g2), (text g3).
    split; [reflexivity|]. split.
    + apply chars_inj. rewrite chars_job_file_name, !chars_text. exact E.
    + repeat split; try (rewrite chars_text; assumption).
  - right. split; [reflexivity|].
    intros tag name number (N1 & C1) (N2 & C2) (N3 & C3) ->.
    rewrite chars_job_file_name in M.
    destruct (deployedRe_complete (chars tag) (chars name) (chars number))
      as [r Hr]; auto.
    congruence.
Qed.

(** What the loop body does with a file that yields a unit name. *)
Lemma collect_keep (ctx : SimpleContext) (installed : list string)
    (f u : string) :
  recovers IsUnitName (deployerTag ctx) f u ->
  collect IsUnitName ctx installed f = installed ++ [u].
Proof.
  intros (tag & name & number & -> & T & N & D & -> & -> & V).
  unfold collect.
  destruct (FindStringSubmatch_deployedRe
              (job_file_name (deployerTag ctx) name number))
    as [(tag' & name' & number' & -> & E & T' & N' & D') | (_ & No)].
  - apply (f_equal chars) in E. rewrite !chars_job_file_name in E.
    apply job_chars_unique in E;
      try apply T; try apply T'; try apply D; try apply D'.
    destruct E as (E1 & E2 & E3).
    apply chars_inj in E1, E2, E3. subst tag' name' number'.
    rewrite String.eqb_refl. cbn [negb]. now rewrite V.
  - exfalso. now apply (No (deployerTag ctx) name number).
Qed.

(** What it does with any other file. *)
Lemma collect_skip (ctx : SimpleContext) (installed : list string)
    (f : string) :
  (forall u, ~ recovers IsUnitName (deployerTag ctx) f u) ->
  collect IsUnitName ctx installed f = installed.
Proof.
  intro No. unfold collect.
  destruct (FindStringSubmatch_deployedRe f)
    as [(tag & name & number & -> & E & T & N & D) | (-> & _)];
    [|reflexivity].
  destruct (String.eqb tag (deployerTag ctx)) eqn:Etag; [|reflexivity].
  cbn [negb]. destruct (IsUnitName (name ++ "/" ++ number)%string) eqn:V;
    [|reflexivity].
  exfalso. apply String.eqb_eq in Etag.
  apply (No (name ++ "/" ++ number)%string).
  now exists tag, name, number.
Qed.

Lemma recovers_dec (own f : string) :
  (exists u, recovers IsUnitName own f u) \/
  (forall u, ~ recovers IsUnitName own f u).
Proof.
  destruct (FindStringSubmatch_deployedRe f)
    as [(tag & name & number & _ & E & T & N & D) | (_ & No)].
  - destruct (String.eqb tag own) eqn:Etag.
    + apply String.eqb_eq in Etag.
      destruct (IsUnitName (name ++ "/" ++ number)%string) eqn:V.
      * left. exists (name ++ "/" ++ number)%string.
        now exists tag, name, number.
      * right. intros u (t' & n' & d' & E' & T' & N' & D' & Et & -> & V').
        rewrite E in E'. apply (f_equal chars) in E'.
        rewrite !chars_job_file_name in E'.
        apply job_chars_unique in E';
          try apply T; try apply T'; try apply D; try apply D'.
        destruct E' as (_ & E2 & E3).
        apply chars_inj in E2, E3. subst. congruence.
    + right. intros u (t' & n' & d' & E' & T' & N' & D' & Et & -> & V').
      rewrite E in E'. apply (f_equal chars) in E'.
      rewrite !chars_job_file_name in E'.
      apply job_chars_unique in E';
        try apply T; try apply T'; try apply D; try apply D'.
      destruct E' as (E1 & _ & _). apply chars_inj in E1. subst.
      rewrite String.eqb_refl in Etag. discriminate.
  - right. intros u (t' & n' & d' & E' & T' & N' & D' & _).
    now apply (No t' n' d').
Qed.

Lemma fold_collect_reported (ctx : SimpleContext) (fis : list string) :
  forall installed,
  exists units,
    fold_left (collect IsUnitName ctx) fis installed = installed ++ units /\
    reported IsUnitName (deployerTag ctx) fis units.
Proof.
  induction fis as [|f fis IH]; intro installed; simpl.
  - exists []. split; [now rewrite app_nil_r | constructor].
  - destruct (recovers_dec (deployerTag ctx) f) as [[u Hu] | No].
    + rewrite (collect_keep ctx installed f u Hu).
      destruct (IH (installed ++ [u])) as (us & -> & R).
      exists (u :: us). split; [now rewrite <- app_assoc|].
      now constructor.
    + rewrite (collect_skip ctx installed f No).
      destruct (IH installed) as (us & -> & R).
      exists us. split; [reflexivity|]. now apply reported_skip.
Qed.

(** C10. [DeployedUnits] reports exactly the unit names recovered from
    the file names of the init directory that read
    jujud-<tag>:unit-<name>-<number>.conf, carry the deployer tag of the
    context and give a valid unit name, one per such file and in the
    order of the listing; every other file is skipped, and the error
    returned is nil. *)
Theorem DeployedUnits_reports_own_units (ctx : SimpleContext)
    (fis : list string) :
  ReadDir host (initDir ctx) = Ok fis ->
  exists units,
    DeployedUnits IsUnitName host ctx = (units, None) /\
    reported IsUnitName (deployerTag ctx) fis units /\
    (forall u, In u units <->
       exists f, In f fis /\ recovers IsUnitName (deployerTag ctx) f u).
Proof.
  intro Hdir. unfold DeployedUnits. rewrite Hdir.
  destruct (fold_collect_reported ctx fis []) as (units & E & R).
  exists units. simpl in E. rewrite E. split; [reflexivity|].
  split; [exact R|].
  clear E Hdir. induction R as [|f fs u us Hu R IH | f fs us No R IH].
  - intro u. split; [intros [] | intros (f & [] & _)].
  - intro v. split.
    + intros [<- | Hv].
      * exists f. split; [now left | assumption].
      * apply IH in Hv as (f' & Hin & Hr). exists f'. split; [now right | assumption].
    + intros (f' & [<- | Hin] & Hr).
      * left. clear IH R.
        destruct Hu as (t & n & d & E & T & N & D & _ & -> & _).
        destruct Hr as (t' & n' & d' & E' & T' & N' & D' & _ & -> & _).
        rewrite E in E'. apply (f_equal chars) in E'.
        rewrite !chars_job_file_name in E'.
        apply job_chars_unique in E';
          try apply T; try apply T'; try apply D; try apply D'.
        destruct E' as (_ & E2 & E3). apply chars_inj in E2, E3.
        now subst.
      * right. apply IH. now exists f'.
  - intro v. split.
    + intro Hv. apply IH in Hv as (f' & Hin & Hr).
      exists f'. split; [now right | assumption].
    + intros (f' & [<- | Hin] & Hr).
      * exfalso. now apply (No v).
      * apply IH. now exists f'.
Qed.

End DeployedUnitsFacts.

(** ** [DeployUnit] *)

Section DeployUnitFacts.
Import GoErrors Chars Deployer.

Variable UnitTag : string -> string.
Variable ToolsDir : string -> string -> string.
Variable AgentDir : string -> string -> string.
Variable Join : string -> string -> string.
Variable ConfigFilePath : string -> string -> string.
Variable Sprintf : string -> list string -> string.
Variable host : Host.

Lemma created_app (a b : list effect) :
  created (a ++ b) = created a ++ created b.
Proof. apply flat_map_app. Qed.

Lemma removed_app (a b : list effect) :
  removed (a ++ b) = removed a ++ removed b.
Proof. apply flat_map_app. Qed.

(** With a nil error the deferred calls do nothing. *)
Lemma cleanup_nil (deferred : list string) :
  run_deferred Sprintf host None deferred = [].
Proof. unfold run_deferred. induction deferred; simpl; auto. Qed.

(** With a non-nil error every deferred path is handed to os.Remove, the
    last deferred first, and nothing else happens to the file system. *)
Lemma cleanup_removes (e : err) (deferred : list string) :
  removed (run_deferred Sprintf host (Some e) deferred) = deferred /\
  created (run_deferred Sprintf host (Some e) deferred) = [].
Proof.
  induction deferred as [|p ps [IHr IHc]]; [auto|].
  change (run_deferred Sprintf host (Some e) (p :: ps))
    with (removeOnErr Sprintf host (Some e) p
          ++ run_deferred Sprintf host (Some e) ps).
  rewrite removed_app, created_app, IHr, IHc.
  unfold removeOnErr. destruct (OsRemove host p); auto.
Qed.

(** C9. [DeployUnit] first works, then cleans up: when the error it
    returns is non-nil, every artifact the work created (tools
    directory, agent configuration directory, syslog configuration
    file) is handed to os.Remove before the return; when the error is
    nil, the cleanup does nothing. *)
Theorem DeployUnit_removes_created_on_error (ctx : SimpleContext)
    (unitName initialPassword : string) :
  exists (ctx' : SimpleContext) (err : error) (work cleanup : list effect),
    DeployUnit UnitTag ToolsDir AgentDir Join ConfigFilePath Sprintf host
      ctx unitName initialPassword = (ctx', err, work ++ cleanup) /\
    removed work = [] /\
    created cleanup = [] /\
    (err <> None -> incl (created work) (removed cleanup)) /\
    (err = None -> cleanup = []).
Proof.
  unfold DeployUnit, returning.
  destruct (Installed host (upstartService UnitTag ctx unitName)).
  { eexists _, _, [], _. split; [reflexivity|].
    simpl. repeat split; auto. intros _ p []. }
  set (tag := UnitTag unitName).
  set (toolsDir := ToolsDir (dataDir ctx) tag).
  match goal with
  | |- context [ConfWrite host ?c] => set (conf := c)
  end.
  destruct (ConfWrite host conf) as [e|].
  { eexists _, _, _, _. split; [reflexivity|].
    destruct (cleanup_removes e [toolsDir]) as [Hr Hc].
    rewrite Hr, Hc.
    destruct (ChangeAgentTools host (dataDir ctx) tag);
      (split; [reflexivity | split; [reflexivity | split]]);
      try discriminate; intros _ p Hp; simpl in Hp; simpl; tauto. }
  set (dir := confDir AgentDir conf).
  match goal with
  | |- context [SyslogWrite host ?d ?n] => set (cdir := d); set (name := n)
  end.
  set (path := ConfigFilePath cdir name).
  destruct (SyslogWrite host cdir name) as [e|].
  { eexists _, _, _, _. split; [reflexivity|].
    destruct (cleanup_removes e [dir; toolsDir]) as [Hr Hc].
    rewrite Hr, Hc.
    destruct (ChangeAgentTools host (dataDir ctx) tag);
      (split; [reflexivity | split; [reflexivity | split]]);
      try discriminate; intros _ p Hp; simpl in Hp; simpl; tauto. }
  match goal with
  | |- context [UpstartInstall host ?u] => set (uconf := u)
  end.
  cbn [syslogConfigPath set_syslogConfigPath].
  destruct (UpstartInstall host uconf) as [e|].
  - eexists _, _, _, _. split; [reflexivity|].
    destruct (cleanup_removes e [path; dir; toolsDir]) as [Hr Hc].
    rewrite Hr, Hc.
    destruct (ChangeAgentTools host (dataDir ctx) tag);
      destruct (SyslogRestart host);
      (split; [reflexivity | split; [reflexivity | split]]);
      try discriminate; intros _ p Hp; simpl in Hp; simpl; tauto.
  - eexists _, _, _, _. split; [reflexivity|].
    rewrite cleanup_nil.
    destruct (ChangeAgentTools host (dataDir ctx) tag);
      destruct (SyslogRestart host);
      (split; [reflexivity | split; [reflexivity | split]]);
      congruence.
Qed.

End DeployUnitFacts.

(** ** The unit worker: one notification *)

Section NotificationFacts.
Import GoErrors.
Import Catacomb(Worker).
Import UnitWorker.

Context {Spec G B : Type}.
Context {getter : ContainerSpecGetter G} {applier : ContainerBroker Spec B}.
Variable ParseContainerSpec : string -> result Spec.

Local Abbreviation state := (UnitWorker.state Spec G B).
Local Abbreviation step := (UnitWorker.step ParseContainerSpec).

(** C1. A notification whose fetch fails with a not-found error leaves
    the worker watching: the loop does not return, EnsureUnit is not
    called, the supervision unit is untouched, and the select statement
    is ready for the next notification, or for Dying once the unit is
    dying. *)
Theorem notfound_keeps_watching (st : state) (cw : Worker) (e : err) :
  at_ st = Watching cw ->
  fetched st = Error e ->
  IsNotFound (Some e) = true ->
  exists st',
    step st (InChange true) = Some st' /\
    at_ st' = Watching cw /\
    calls st' =
      CallContainerSpec (unit (worker st)) (Error e)
        :: RecvChange true :: calls st /\
    broker (worker st') = broker (worker st) /\
    catacomb (worker st') = catacomb (worker st) /\
    Wait st' = Wait st /\
    (forall ok, step st' (InChange ok) <> None) /\
    (step st' InDying <> None <->
     Catacomb.Dying (catacomb (worker st')) = true).
Proof.
  intros Hat Hfetch Hnf. unfold fetched in Hfetch.
  unfold UnitWorker.step. rewrite Hat. cbn [reconcile].
  unfold reconcile.
  destruct (ContainerSpec (containerSpecGetter (worker st))
              (unit (worker st))) as [r g] eqn:E.
  simpl in Hfetch. subst r. rewrite Hnf.
  eexists. split; [reflexivity|].
  cbn [at_ calls worker with_getter unit broker catacomb].
  repeat split.
  - intros [|]; discriminate.
  - unfold UnitWorker.step. cbn [at_ worker with_getter catacomb].
    destruct (Catacomb.Dying (catacomb (worker st))); congruence.
  - unfold UnitWorker.step. cbn [at_ worker with_getter catacomb].
    intros ->. discriminate.
Qed.

(** C8. A fetched payload that does not parse makes the loop return the
    parse error annotated with "cannot parse container spec": the cause
    is kept, EnsureUnit is not called, and the loop takes no further
    notification. *)
Theorem parse_failure_is_annotated (st : state) (cw : Worker)
    (specStr : string) (e : err) :
  at_ st = Watching cw ->
  fetched st = Ok specStr ->
  ParseContainerSpec specStr = Error e ->
  exists st',
    step st (InChange true) = Some st' /\
    at_ st' = Returned (Some (Annotated e "cannot parse container spec")) /\
    Cause (Annotated e "cannot parse container spec") = Cause e /\
    calls st' =
      CallParseContainerSpec specStr (Error e)
        :: CallContainerSpec (unit (worker st)) (Ok specStr)
        :: RecvChange true :: calls st /\
    broker (worker st') = broker (worker st) /\
    (forall ok, step st' (InChange ok) = None) /\
    step st' InStart = None /\ step st' InDying = None.
Proof.
  intros Hat Hfetch Hparse. unfold fetched in Hfetch.
  unfold UnitWorker.step. rewrite Hat. cbn [reconcile].
  unfold reconcile.
  destruct (ContainerSpec (containerSpecGetter (worker st))
              (unit (worker st))) as [r g] eqn:E.
  simpl in Hfetch. subst r. rewrite Hparse.
  eexists. split; [reflexivity|].
  cbn. repeat split.
Qed.

End NotificationFacts.

(** ** The unit worker: whole runs *)

Section RunFacts.
Import GoErrors.
Import Catacomb(Worker).
Import UnitWorker.

Context {Spec G B : Type}.
Context {getter : ContainerSpecGetter G} {applier : ContainerBroker Spec B}.
Variable ParseContainerSpec : string -> result Spec.

Local Abbreviation state := (UnitWorker.state Spec G B).
Local Abbreviation step := (UnitWorker.step ParseContainerSpec).
Local Abbreviation run := (UnitWorker.run ParseContainerSpec).

(** Splits a hypothesis [step st i = Some st'] along every branch the
    code can take. *)
Ltac step_cases H :=
  unfold UnitWorker.step, Kill, start, reconcile, returns in H;
  repeat match type of H with
  | context [match ?x with _ => _ end] => destruct x eqn:?
  end;
  try discriminate H; injection H as H; subst.

Lemma run_app (st : state) (a b : list input) :
  run st (a ++ b) =
  match run st a with
  | Some st' => run st' b
  | None => None
  end.
Proof.
  revert st. induction a as [|i a IH]; intro st; simpl; [reflexivity|].
  destruct (step st i); [apply IH | reflexivity].
Qed.

(** A property kept by every move is kept by every run. *)
Lemma run_invariant (P : state -> Prop) :
  (forall st st' i, step st i = Some st' -> P st -> P st') ->
  forall inputs st st', run st inputs = Some st' -> P st -> P st'.
Proof.
  intros Hstep. induction inputs as [|i inputs IH]; intros st st' H HP;
    simpl in H.
  - now injection H as <-.
  - destruct (step st i) as [st1|] eqn:E; [|discriminate].
    eapply IH; eauto.
Qed.

Lemma step_identity (st st' : state) (i : input) :
  step st i = Some st' ->
  application (worker st') = application (worker st) /\
  unit (worker st') = unit (worker st).
Proof. intro H. step_cases H; auto. Qed.

Lemma step_justified (app u : string) (st st' : state) (i : input) :
  step st i = Some st' ->
  application (worker st) = app /\ unit (worker st) = u /\
  justified ParseContainerSpec app u (calls st) ->
  application (worker st') = app /\ unit (worker st') = u /\
  justified ParseContainerSpec app u (calls st').
Proof.
  intros H (Ha & Hu & J).
  destruct (step_identity _ _ _ H) as [Ea Eu].
  split; [congruence|]. split; [congruence|].
  clear Ea Eu. subst app u.
  step_cases H; cbn in *; auto; repeat split; auto; eauto.
Qed.

Lemma justified_at (app u : string) (log : list (call Spec)) :
  justified ParseContainerSpec app u log ->
  forall newer older a u' spec r,
    log = newer ++ CallEnsureUnit a u' spec r :: older ->
    a = app /\ u' = u /\
    exists specStr older',
      older = CallParseContainerSpec specStr (Ok spec)
                :: CallContainerSpec u (Ok specStr) :: older' /\
      ParseContainerSpec specStr = Ok spec.
Proof.
  intros J newer. revert log J.
  induction newer as [|c newer IH]; intros log J older a u' spec r ->.
  - simpl in J. destruct J as (-> & -> & Hex & _). auto.
  - refine (IH _ _ older a u' spec r eq_refl).
    simpl in J. destruct c; try exact J. now destruct J as (_ & _ & _ & J).
Qed.

(** C3. Every EnsureUnit call the worker makes is keyed by the
    application and the unit it was built with, and its payload is what
    ParseContainerSpec made of the payload of the fetch just before it,
    a successful fetch for that unit: the most recent one. *)
Theorem ensure_gets_latest_parsed_spec (app u : string) (b : B) (g : G)
    (inputs : list input) (st : state)
    (newer older : list (call Spec)) (a u' : string) (spec : Spec)
    (r : error) :
  run (newUnitWorker app u b g) inputs = Some st ->
  calls st = newer ++ CallEnsureUnit a u' spec r :: older ->
  a = app /\ u' = u /\
  exists specStr older',
    older = CallParseContainerSpec specStr (Ok spec)
              :: CallContainerSpec u (Ok specStr) :: older' /\
    ParseContainerSpec specStr = Ok spec.
Proof.
  intros Hrun Hcalls.
  assert (J : application (worker st) = app /\ unit (worker st) = u /\
              justified ParseContainerSpec app u (calls st)).
  { apply (run_invariant
             (fun s => application (worker s) = app /\ unit (worker s) = u /\
                       justified ParseContainerSpec app u (calls s))
             (step_justified app u) inputs _ _ Hrun).
    simpl. auto. }
  destruct J as (_ & _ & J).
  exact (justified_at app u (calls st) J newer older a u' spec r Hcalls).
Qed.

Lemma dying_Finish (e : error) (c : Catacomb.Catacomb) :
  Catacomb.Dying (Catacomb.Finish e c) = true.
Proof.
  unfold Catacomb.Dying, Catacomb.Finish, Catacomb.Kill.
  destruct (Catacomb.dying c) eqn:E; simpl; auto.
Qed.

Lemma dying_Kill (e : error) (c : Catacomb.Catacomb) :
  Catacomb.Dying (Catacomb.Kill e c) = true.
Proof.
  unfold Catacomb.Dying, Catacomb.Kill.
  destruct (Catacomb.dying c) eqn:E; simpl; auto.
Qed.

Lemma dying_Add (w : Worker) (c : Catacomb.Catacomb) :
  Catacomb.Dying (fst (Catacomb.Add w c)) = Catacomb.Dying c.
Proof.
  unfold Catacomb.Dying, Catacomb.Add.
  destruct (Catacomb.dying c); reflexivity.
Qed.

(** The Dying signal is level-triggered: once fired it stays fired. *)
Lemma step_dying (st st' : state) (i : input) :
  step st i = Some st' ->
  Catacomb.Dying (catacomb (worker st)) = true ->
  Catacomb.Dying (catacomb (worker st')) = true.
Proof.
  intros H D.
  step_cases H;
    cbn [worker catacomb with_catacomb with_getter with_broker] in *;
    rewrite ?dying_Finish, ?dying_Kill; auto.
  match goal with
  | E : Catacomb.Add ?w ?c = (?c', _) |- _ =>
      replace c' with (fst (Catacomb.Add w c)) by (now rewrite E)
  end.
  now rewrite dying_Add.
Qed.

Lemma step_settled (st st' : state) (i : input) :
  step st i = Some st' -> settled st -> settled st'.
Proof.
  intros H S. unfold settled in *.
  step_cases H; cbn in *; rewrite ?dying_Finish, ?dying_Kill;
    repeat match goal with
    | E : ?x = _ |- context [?x] => rewrite E
    end; cbn;
    try solve
      [ assumption
      | reflexivity
      | destruct (at_ st); intuition
      | right; eexists; split; [reflexivity|]; split;
        [discriminate | rewrite ?orb_true_r; reflexivity]
      | left; repeat split; auto ].
Qed.

(** C2, as amended.  The loop returns an error other than the unit's
    dying error exactly when the subscription failed, the notification
    channel was closed, a fetch failed with an error that is not a
    not-found error, a payload did not parse, or EnsureUnit failed.
    Without any of these the loop has not started, or is blocked in its
    select statement, or has returned the dying error of a dying unit on
    receiving from Dying; it never returns nil. *)
Theorem loop_returns_error_exactly_on_escalation (app u : string) (b : B)
    (g : G) (inputs : list input) (st : state) :
  run (newUnitWorker app u b g) inputs = Some st ->
  ((exists e, at_ st = Returned (Some e) /\ e <> ErrDying) <->
   existsb escalating (calls st) = true) /\
  (existsb escalating (calls st) = false ->
   at_ st = NotStarted \/
   (exists cw, at_ st = Watching cw) \/
   (at_ st = Returned (Some ErrDying) /\
    Catacomb.Dying (catacomb (worker st)) = true /\
    In RecvDying (calls st))) /\
  at_ st <> Returned None.
Proof.
  intro Hrun.
  assert (S : settled st).
  { apply (run_invariant settled step_settled inputs _ _ Hrun).
    reflexivity. }
  unfold settled in S.
  destruct (at_ st) as [|cw|e] eqn:Hat.
  - rewrite S. cbn. repeat split.
    + intros (e & He & _). discriminate.
    + discriminate.
    + auto.
    + discriminate.
  - repeat split.
    + intros (e & He & _). discriminate.
    + congruence.
    + intros _. right. left. now exists cw.
    + discriminate.
  - destruct S as [(-> & Hno & Hd & Hin) | (e' & -> & Hne & Hyes)].
    + repeat split.
      * intros (e & He & Hne). congruence.
      * congruence.
      * intros _. right. right. auto.
      * discriminate.
    + repeat split.
      * intros _. exact Hyes.
      * intros _. now exists e'.
      * congruence.
      * discriminate.
Qed.

Lemma reconcile_success (st : state) (cw : Worker) :
  reconcile_succeeds ParseContainerSpec st = true ->
  at_ (reconcile ParseContainerSpec st cw) = Watching cw /\
  catacomb (worker (reconcile ParseContainerSpec st cw))
    = catacomb (worker st) /\
  exists specStr spec,
    calls (reconcile ParseContainerSpec st cw) =
      Debugf "created/updated unit %s"
        :: CallEnsureUnit (application (worker st)) (unit (worker st))
             spec None
        :: CallParseContainerSpec specStr (Ok spec)
        :: CallContainerSpec (unit (worker st)) (Ok specStr)
        :: RecvChange true :: calls st.
Proof.
  unfold reconcile_succeeds, reconcile, fetched.
  destruct (ContainerSpec (containerSpecGetter (worker st))
              (unit (worker st))) as [[specStr|e] g]; cbn; [|discriminate].
  destruct (ParseContainerSpec specStr) as [spec|e]; [|discriminate].
  destruct (EnsureUnit (broker (worker st)) (application (worker st))
              (unit (worker st)) spec) as [[e|] b]; cbn; [discriminate|].
  intros _. repeat split. now exists specStr, spec.
Qed.

(** C7. A notification whose fetch, parse and EnsureUnit all succeed
    takes the worker from its select statement back to its select
    statement, with one more EnsureUnit call made and the supervision
    unit untouched; [n] such notifications in a row do so [n] times,
    for every [n]. *)
Theorem successful_reconciliation_keeps_watching (n : nat) :
  forall (st : state) (cw : Worker),
    at_ st = Watching cw ->
    cycles_succeed ParseContainerSpec n st cw = true ->
    exists st',
      run st (repeat (InChange true) n) = Some st' /\
      at_ st' = Watching cw /\
      ensure_count (calls st') = n + ensure_count (calls st) /\
      catacomb (worker st') = catacomb (worker st) /\
      forall ok, step st' (InChange ok) <> None.
Proof.
  induction n as [|n IH]; intros st cw Hat Hok.
  - exists st. cbn. repeat split; auto.
    intro ok. unfold UnitWorker.step. rewrite Hat.
    destruct ok; discriminate.
  - cbn [cycles_succeed] in Hok. apply andb_true_iff in Hok as [H1 Hn].
    destruct (reconcile_success st cw H1) as (Hat' & Hcat & s & sp & Hcalls).
    destruct (IH _ cw Hat' Hn) as (st' & Hrun & Hat'' & Hcount & Hcat' & Hnext).
    exists st'. cbn [repeat UnitWorker.run].
    unfold UnitWorker.step at 1. rewrite Hat.
    repeat split; auto.
    + rewrite Hcount, Hcalls. unfold ensure_count. cbn. lia.
    + congruence.
Qed.


(** C5. Once Kill has been called on a worker, the Dying signal stays
    fired; a loop that is still in its select statement then, with no
    failed sub-worker, receives from Dying, returns the dying error of
    the unit, and Wait returns nil. *)
Theorem kill_stops_cleanly (st st1 : state) (inputs : list input)
    (cw : Worker) :
  run (Kill st) inputs = Some st1 ->
  at_ st1 = Watching cw ->
  Catacomb.first_error
    (map Catacomb.waitErr (Catacomb.children (catacomb (worker st1))))
    = None ->
  Catacomb.Dying (catacomb (worker st1)) = true /\
  exists st2,
    step st1 InDying = Some st2 /\
    at_ st2 = Returned (Catacomb.ErrDying (catacomb (worker st1))) /\
    at_ st2 = Returned (Some ErrDying) /\
    hd_error (calls st2) = Some RecvDying /\
    Wait st2 = Some None.
Proof.
  intros Hrun Hat Hclean.
  assert (D : Catacomb.Dying (catacomb (worker st1)) = true).
  { apply (run_invariant
             (fun s => Catacomb.Dying (catacomb (worker s)) = true)
             step_dying inputs _ _ Hrun).
    cbn. apply dying_Kill. }
  split; [exact D|].
  unfold UnitWorker.step. rewrite Hat, D.
  eexists. split; [reflexivity|]. cbn. repeat split.
  unfold Wait, Catacomb.Wait, Catacomb.Finish, Catacomb.Kill. cbn.
  unfold Catacomb.Dying in D. rewrite D. cbn. now rewrite Hclean.
Qed.

(** On a unit that is not dying, the start of the loop registers the
    subscription before it reaches the select statement, and a later
    Kill reaches the subscription. *)
Lemma start_binds_subscription (st : state) (cw : Worker) :
  at_ st = NotStarted ->
  Catacomb.Dying (catacomb (worker st)) = false ->
  fst (WatchContainerSpec (containerSpecGetter (worker st))
         (unit (worker st))) = Ok cw ->
  exists st',
    step st InStart = Some st' /\
    at_ st' = Watching cw /\
    calls st' =
      CallAdd cw None
        :: CallWatchContainerSpec (unit (worker st)) (Ok cw) :: calls st /\
    Catacomb.children (catacomb (worker st')) =
      Catacomb.children (catacomb (worker st)) ++ [cw] /\
    Catacomb.stopped (catacomb (worker (Kill st'))) cw = true.
Proof.
  intros Hat Hd Hw. unfold UnitWorker.step. rewrite Hat. unfold start.
  destruct (WatchContainerSpec (containerSpecGetter (worker st))
              (unit (worker st))) as [r g].
  cbn in Hw. subst r. cbn. unfold Catacomb.Add, Catacomb.Dying in *.
  rewrite Hd. eexists. split; [reflexivity|]. cbn. repeat split.
  unfold Catacomb.stopped, Catacomb.bound, Catacomb.Kill. cbn.
  rewrite existsb_app. cbn. unfold Catacomb.same_worker.
  rewrite Nat.eqb_refl. now rewrite orb_true_r.
Qed.

(** On a dying unit Add tracks no new child and reports an error; the
    subscription is stopped at once, and the loop goes on to its select
    statement. *)
Lemma start_on_dying_unit_stops_subscription (st : state) (cw : Worker) :
  at_ st = NotStarted ->
  Catacomb.Dying (catacomb (worker st)) = true ->
  fst (WatchContainerSpec (containerSpecGetter (worker st))
         (unit (worker st))) = Ok cw ->
  exists st',
    step st InStart = Some st' /\
    at_ st' = Watching cw /\
    calls st' =
      CallAdd cw (Some ErrDying)
        :: CallWatchContainerSpec (unit (worker st)) (Ok cw) :: calls st /\
    Catacomb.children (catacomb (worker st')) =
      Catacomb.children (catacomb (worker st)) /\
    Catacomb.stopped (catacomb (worker st')) cw = true.
Proof.
  intros Hat Hd Hw. unfold UnitWorker.step. rewrite Hat. unfold start.
  destruct (WatchContainerSpec (containerSpecGetter (worker st))
              (unit (worker st))) as [r g].
  cbn in Hw. subst r. cbn. unfold Catacomb.Add, Catacomb.Dying in *.
  rewrite Hd. eexists. split; [reflexivity|]. cbn. repeat split.
  unfold Catacomb.stopped, Catacomb.bound. cbn.
  rewrite existsb_app. cbn. unfold Catacomb.same_worker.
  rewrite Nat.eqb_refl. now rewrite !orb_true_r.
Qed.

End RunFacts.

(** ** The gate *)

Section GateFacts.
Import Gate.

Lemma observe_unlocked (ops : list op) :
  observe ops Unlocked =
  (repeat true (List.length (filter is_observe ops)), Unlocked).
Proof.
  induction ops as [|[|] ops IH]; cbn; auto.
  now rewrite IH.
Qed.

Lemma observe_locked (n : nat) (rest : list op) :
  observe (repeat OpObserve n ++ rest) Locked =
  (repeat false n ++ fst (observe rest Locked), snd (observe rest Locked)).
Proof.
  induction n as [|n IH]; cbn.
  - now destruct (observe rest Locked).
  - now rewrite IH.
Qed.

(** C4. A new gate is Locked and its Unlocked signal is not fired,
    however often it is observed; after one Unlock the signal is fired
    at every later observation, whatever is done to the gate in between,
    and the gate ends Unlocked; [assertGate] passes on a new gate. *)
Theorem gate_unlocks_once_and_for_all (n : nat) (later : list op) :
  NewGate = Locked /\
  fired NewGate = false /\
  observe (repeat OpObserve n ++ OpUnlock :: later) NewGate =
    (repeat false n
       ++ repeat true (List.length (filter is_observe later)),
     Unlocked) /\
  (forall g, fired (Unlock g) = true /\ Unlock (Unlock g) = Unlock g) /\
  assertGate NewGate = Passed.
Proof.
  repeat split.
  unfold NewGate. rewrite observe_locked. cbn [observe Unlock].
  now rewrite observe_unlocked.
Qed.

End GateFacts.

(** ** The theorems at work on the test doubles *)

Section Instances.
Import GoErrors Fixtures UnitWorker.
Import Catacomb(Worker).

Lemma notfound_keeps_watching_witness :
  at_ lateWorker = Watching watcher0 /\
  fetched lateWorker = Error (NotFoundf "container spec") /\
  exists st',
    step parseSpec lateWorker (InChange true) = Some st' /\
    at_ st' = Watching watcher0 /\
    calls st' =
      CallContainerSpec (unit (worker lateWorker))
        (Error (NotFoundf "container spec"))
        :: RecvChange true :: calls lateWorker /\
    broker (worker st') = broker (worker lateWorker) /\
    catacomb (worker st') = catacomb (worker lateWorker) /\
    Wait st' = Wait lateWorker /\
    (forall ok, step parseSpec st' (InChange ok) <> None) /\
    (step parseSpec st' InDying <> None <->
     Catacomb.Dying (catacomb (worker st')) = true).
Proof.
  split; [reflexivity|]. split; [reflexivity|].
  apply (notfound_keeps_watching parseSpec lateWorker watcher0
           (NotFoundf "container spec"));
    reflexivity.
Defined.

Lemma parse_failure_is_annotated_witness :
  at_ lateWorker2 = Watching watcher0 /\
  fetched lateWorker2 = Ok "" /\
  parseSpec "" = Error (New "empty container spec") /\
  exists st',
    step parseSpec lateWorker2 (InChange true) = Some st' /\
    at_ st' =
      Returned (Some (Annotated (New "empty container spec")
                        "cannot parse container spec")) /\
    Cause (Annotated (New "empty container spec")
             "cannot parse container spec")
      = Cause (New "empty container spec") /\
    calls st' =
      CallParseContainerSpec "" (Error (New "empty container spec"))
        :: CallContainerSpec (unit (worker lateWorker2)) (Ok "")
        :: RecvChange true :: calls lateWorker2 /\
    broker (worker st') = broker (worker lateWorker2) /\
    (forall ok, step parseSpec st' (InChange ok) = None) /\
    step parseSpec st' InStart = None /\ step parseSpec st' InDying = None.
Proof.
  split; [reflexivity|]. split; [reflexivity|]. split; [reflexivity|].
  apply (parse_failure_is_annotated parseSpec lateWorker2 watcher0 ""
           (New "empty container spec"));
    reflexivity.
Defined.

Lemma ensure_gets_latest_parsed_spec_witness :
  run parseSpec (newUnitWorker "gitlab" "gitlab/0" quietBroker lateGetter)
    [InStart; InChange true; InChange true] = Some lateWorker2 /\
  "gitlab" = "gitlab" /\ "gitlab/0" = "gitlab/0" /\
  exists specStr older',
    [ CallParseContainerSpec "image: gitlab" (Ok "image: gitlab");
      CallContainerSpec "gitlab/0" (Ok "image: gitlab");
      RecvChange true;
      CallContainerSpec "gitlab/0" (Error (NotFoundf "container spec"));
      RecvChange true;
      CallAdd watcher0 None;
      CallWatchContainerSpec "gitlab/0" (Ok watcher0) ]
    = CallParseContainerSpec specStr (Ok "image: gitlab")
        :: CallContainerSpec "gitlab/0" (Ok specStr) :: older' /\
    parseSpec specStr = Ok "image: gitlab".
Proof.
  split; [reflexivity|].
  apply (ensure_gets_latest_parsed_spec parseSpec "gitlab" "gitlab/0"
           quietBroker lateGetter [InStart; InChange true; InChange true]
           lateWorker2 [Debugf "created/updated unit %s"] _
           "gitlab" "gitlab/0" "image: gitlab" None);
    reflexivity.
Defined.

(** C2, as stated, fails when the subscription fails: the loop returns
    an error, which is not the dying error, although the channel was not
    closed and no fetch, parse or EnsureUnit has failed. *)
Lemma loop_error_without_listed_failure :
  exists st,
    run parseSpec (newUnitWorker "gitlab" "gitlab/0" quietBroker deafGetter)
      [InStart] = Some st /\
    at_ st = Returned (Some (Traced (New "connection is shut down"))) /\
    ~ ((exists e, at_ st = Returned (Some e) /\ e <> ErrDying) <->
       existsb listed_failure (calls st) = true).
Proof.
  eexists. split; [reflexivity|]. split; [reflexivity|].
  cbn. intros [H _].
  assert (F : false = true); [|discriminate F].
  apply H. eexists. split; [reflexivity | discriminate].
Qed.

Lemma loop_returns_error_exactly_on_escalation_witness :
  run parseSpec (newUnitWorker "gitlab" "gitlab/0" quietBroker lateGetter)
    [InStart; InChange true; InChange true; InChange true]
    = Some lateWorker3 /\
  ((exists e, at_ lateWorker3 = Returned (Some e) /\ e <> ErrDying) <->
   existsb escalating (calls lateWorker3) = true) /\
  (existsb escalating (calls lateWorker3) = false ->
   at_ lateWorker3 = NotStarted \/
   (exists cw, at_ lateWorker3 = Watching cw) \/
   (at_ lateWorker3 = Returned (Some ErrDying) /\
    Catacomb.Dying (catacomb (worker lateWorker3)) = true /\
    In RecvDying (calls lateWorker3))) /\
  at_ lateWorker3 <> Returned None.
Proof.
  split; [reflexivity|].
  apply (loop_returns_error_exactly_on_escalation parseSpec "gitlab"
           "gitlab/0" quietBroker lateGetter
           [InStart; InChange true; InChange true; InChange true]
           lateWorker3).
  reflexivity.
Defined.

Lemma successful_reconciliation_keeps_watching_witness :
  at_ steadyWorker = Watching watcher0 /\
  cycles_succeed parseSpec 3 steadyWorker watcher0 = true /\
  exists st',
    run parseSpec steadyWorker (repeat (InChange true) 3) = Some st' /\
    at_ st' = Watching watcher0 /\
    ensure_count (calls st') = 3 + ensure_count (calls steadyWorker) /\
    catacomb (worker st') = catacomb (worker steadyWorker) /\
    forall ok, step parseSpec st' (InChange ok) <> None.
Proof.
  split; [reflexivity|]. split; [reflexivity|].
  apply (successful_reconciliation_keeps_watching parseSpec 3 steadyWorker
           watcher0);
    reflexivity.
Defined.

(** Over the steady getter and the quiet broker every reconciliation
    succeeds, so the worker goes round any number of times. *)
Lemma steady_cycles_succeed (n : nat) :
  forall st : state string scriptedGetter scriptedBroker,
    containerSpecGetter (worker st) = steadyGetter ->
    replies (broker (worker st)) = [] ->
    cycles_succeed parseSpec n st watcher0 = true.
Proof.
  induction n as [|n IH]; intros st Hg Hb; [reflexivity|].
  cbn [cycles_succeed].
  assert (H1 : reconcile_succeeds parseSpec st = true).
  { unfold reconcile_succeeds, fetched. rewrite Hg. cbn. now rewrite Hb. }
  rewrite H1. cbn [andb]. apply IH.
  - unfold reconcile. rewrite Hg. cbn. now rewrite Hb.
  - unfold reconcile. rewrite Hg. cbn. now rewrite Hb.
Qed.

Lemma steady_worker_goes_on (n : nat) :
  forall st : state string scriptedGetter scriptedBroker,
    containerSpecGetter (worker st) = steadyGetter ->
    replies (broker (worker st)) = [] ->
    at_ st = Watching watcher0 ->
    exists st',
      run parseSpec st (repeat (InChange true) n) = Some st' /\
      at_ st' = Watching watcher0 /\
      ensure_count (calls st') = n + ensure_count (calls st).
Proof.
  induction n as [|n IH]; intros st Hg Hb Hat.
  - exists st. cbn. auto.
  - assert (H1 : reconcile_succeeds parseSpec st = true).
    { apply (steady_cycles_succeed 1 st Hg) in Hb. cbn in Hb.
      now rewrite andb_true_r in Hb. }
    destruct (reconcile_success parseSpec st watcher0 H1)
      as (Hat' & _ & s & sp & Hcalls).
    destruct (IH (reconcile parseSpec st watcher0)) as (st' & Hrun & Hw & Hc).
    + unfold reconcile. rewrite Hg. cbn. now rewrite Hb.
    + unfold reconcile. rewrite Hg. cbn. now rewrite Hb.
    + exact Hat'.
    + exists st'. cbn [repeat UnitWorker.run].
      unfold step at 1. rewrite Hat. repeat split; auto.
      rewrite Hc, Hcalls. unfold ensure_count. cbn. lia.
Qed.

Lemma steady_worker_never_returns (n : nat) :
  exists st',
    run parseSpec steadyWorker (repeat (InChange true) n) = Some st' /\
    at_ st' = Watching watcher0 /\
    ensure_count (calls st') = n.
Proof.
  destruct (steady_worker_goes_on n steadyWorker) as (st' & Hrun & Hat & Hc);
    try reflexivity.
  exists st'. repeat split; auto. rewrite Hc. cbn. lia.
Qed.

Lemma kill_stops_cleanly_witness :
  run parseSpec (Kill steadyWorker) [InChange true] = Some killedWorker /\
  at_ killedWorker = Watching watcher0 /\
  Catacomb.Dying (catacomb (worker killedWorker)) = true /\
  exists st2,
    step parseSpec killedWorker InDying = Some st2 /\
    at_ st2 = Returned (Catacomb.ErrDying (catacomb (worker killedWorker))) /\
    at_ st2 = Returned (Some ErrDying) /\
    hd_error (calls st2) = Some RecvDying /\
    Wait st2 = Some None.
Proof.
  split; [reflexivity|]. split; [reflexivity|].
  apply (kill_stops_cleanly parseSpec steadyWorker killedWorker
           [InChange true] watcher0);
    reflexivity.
Defined.

End Instances.

Section DeployerInstances.
Import GoErrors Fixtures Deployer.

Lemma DeployedUnits_reports_own_units_witness :
  ReadDir host0 (initDir ctx0) =
    Ok [ "jujud-machine-0:unit-mysql-0.conf";
         "jujud-machine-0:unit-wordpress-12.conf";
         "jujud-machine-1:unit-wordpress-3.conf";
         "jujud-machine-0:unit-wordpress-12.conf.bak";
         "jujud-machine-0:unit-foo-1-2.conf";
         "ssh.conf" ] /\
  DeployedUnits sampleIsUnitName host0 ctx0
    = (["mysql/0"; "wordpress/12"], None) /\
  exists units,
    DeployedUnits sampleIsUnitName host0 ctx0 = (units, None) /\
    reported sampleIsUnitName (deployerTag ctx0)
      [ "jujud-machine-0:unit-mysql-0.conf";
        "jujud-machine-0:unit-wordpress-12.conf";
        "jujud-machine-1:unit-wordpress-3.conf";
        "jujud-machine-0:unit-wordpress-12.conf.bak";
        "jujud-machine-0:unit-foo-1-2.conf";
        "ssh.conf" ] units /\
    (forall u, In u units <->
       exists f,
         In f [ "jujud-machine-0:unit-mysql-0.conf";
                "jujud-machine-0:unit-wordpress-12.conf";
                "jujud-machine-1:unit-wordpress-3.conf";
                "jujud-machine-0:unit-wordpress-12.conf.bak";
                "jujud-machine-0:unit-foo-1-2.conf";
                "ssh.conf" ] /\
         recovers sampleIsUnitName (deployerTag ctx0) f u).
Proof.
  split; [reflexivity|]. split; [reflexivity|].
  apply (DeployedUnits_reports_own_units sampleIsUnitName host0 ctx0).
  reflexivity.
Defined.

(** A failed installation of the upstart job removes, last created
    first, the syslog configuration file, the agent directory and the
    tools directory. *)
Example DeployUnit_install_failure :
  let '(_, err, done) :=
    DeployUnit unitTag0 toolsDir0 agentDir0 join0 configFilePath0 sprintf0
      host0 ctx0 "mysql/0" "secret" in
  err = Some (New "cannot start job") /\
  created done =
    [ "/var/lib/juju/tools/unit-mysql-0";
      "/var/lib/juju/agents/unit-mysql-0";
      "/etc/rsyslog.d/26-juju-unit-mysql-0.conf" ] /\
  removed done =
    [ "/etc/rsyslog.d/26-juju-unit-mysql-0.conf";
      "/var/lib/juju/agents/unit-mysql-0";
      "/var/lib/juju/tools/unit-mysql-0" ].
Proof. repeat split. Qed.

Lemma DeployUnit_removes_created_on_error_witness :
  exists ctx' err work cleanup,
    DeployUnit unitTag0 toolsDir0 agentDir0 join0 configFilePath0 sprintf0
      host0 ctx0 "mysql/0" "secret" = (ctx', err, work ++ cleanup) /\
    removed work = [] /\
    created cleanup = [] /\
    (err <> None -> incl (created work) (removed cleanup)) /\
    (err = None -> cleanup = []).
Proof.
  apply (DeployUnit_removes_created_on_error unitTag0 toolsDir0 agentDir0
           join0 configFilePath0 sprintf0 host0 ctx0 "mysql/0" "secret").
Defined.

End DeployerInstances.

(* ================================================================== *)
(** * Further properties of the deployer *)
(* ================================================================== *)

Section JobFileFacts.
Import GoErrors Chars Deployer.

Variable IsUnitName : string -> bool.

(** X1. [deployedRe] reads back what a job file name was made of: on
    jujud-<tag>:unit-<name>-<number>.conf, with the parts in their
    character classes, FindStringSubmatch returns the name and the three
    parts; and whenever it returns four strings, the last three put
    together as a job file name give the first, which is the input. *)
Theorem deployedRe_round_trip (tag name number : string) :
  (nonempty_of lower_digit_dash tag ->
   nonempty_of lower_digit_dash name ->
   nonempty_of digit number ->
   FindStringSubmatch deployedRe (job_file_name tag name number) =
     [job_file_name tag name number; tag; name; number]) /\
  (forall f whole,
     FindStringSubmatch deployedRe f = [whole; tag; name; number] ->
     whole = f /\ f = job_file_name tag name number).
Proof.
  split.
  - intros T N D.
    destruct (FindStringSubmatch_deployedRe (job_file_name tag name number))
      as [(t' & n' & d' & -> & E & T' & N' & D') | (_ & No)].
    + apply (f_equal chars) in E. rewrite !chars_job_file_name in E.
      apply job_chars_unique in E;
        try apply T; try apply T'; try apply D; try apply D'.
      destruct E as (E1 & E2 & E3). apply chars_inj in E1, E2, E3.
      now subst.
    + exfalso. now apply (No tag name number).
  - intros f whole H.
    destruct (FindStringSubmatch_deployedRe f)
      as [(t' & n' & d' & E & Ef & _) | (E & _)]; rewrite E in H.
    + injection H as <- <- <- <-. auto.
    + discriminate.
Qed.

Lemma slash_outside_class : lower_digit_dash "/"%char = false.
Proof. reflexivity. Qed.

(** A unit name <name>/<number> has one reading only. *)
Lemma unit_name_unique (name number name' number' : string) :
  forallb lower_digit_dash (chars name) = true ->
  forallb lower_digit_dash (chars name') = true ->
  (name ++ "/" ++ number)%string = (name' ++ "/" ++ number')%string ->
  name = name' /\ number = number'.
Proof.
  intros N N' E. apply (f_equal chars) in E. rewrite !chars_append in E.
  change (chars "/") with ["/"%char] in E. cbn [app] in E.
  apply class_run_unique with (cls := lower_digit_dash) in E;
    auto using slash_outside_class.
  destruct E as (E1 & _ & E2). apply chars_inj in E1, E2. auto.
Qed.

(** A file yields one unit name at most, and a unit name comes from
    one file at most. *)
Lemma recovers_functional (own f u u' : string) :
  recovers IsUnitName own f u -> recovers IsUnitName own f u' -> u = u'.
Proof.
  intros (t & n & d & E & T & N & D & _ & -> & _)
         (t' & n' & d' & E' & T' & N' & D' & _ & -> & _).
  rewrite E in E'. apply (f_equal chars) in E'.
  rewrite !chars_job_file_name in E'.
  apply job_chars_unique in E';
    try apply T; try apply T'; try apply D; try apply D'.
  destruct E' as (_ & E2 & E3). apply chars_inj in E2, E3. now subst.
Qed.

Lemma recovers_injective (own f f' u : string) :
  recovers IsUnitName own f u -> recovers IsUnitName own f' u -> f = f'.
Proof.
  intros (t & n & d & -> & T & N & D & -> & Eu & _)
         (t' & n' & d' & -> & T' & N' & D' & -> & Eu' & _).
  rewrite Eu in Eu'.
  apply unit_name_unique in Eu'; try apply N; try apply N'.
  destruct Eu' as [-> ->]. reflexivity.
Qed.

Lemma reported_In (own : string) (fis units : list string) :
  reported IsUnitName own fis units ->
  forall u, In u units <->
    exists f, In f fis /\ recovers IsUnitName own f u.
Proof.
  induction 1 as [|f fs u us Hu R IH | f fs us No R IH]; intro v.
  - split; [intros [] | intros (f & [] & _)].
  - split.
    + intros [<- | Hv].
      * exists f. split; [now left | assumption].
      * apply IH in Hv as (f' & Hin & Hr).
        exists f'. split; [now right | assumption].
    + intros (f' & [<- | Hin] & Hr).
      * left. exact (recovers_functional own f u v Hu Hr).
      * right. apply IH. now exists f'.
  - split.
    + intro Hv. apply IH in Hv as (f' & Hin & Hr).
      exists f'. split; [now right | assumption].
    + intros (f' & [<- | Hin] & Hr).
      * exfalso. now apply (No v).
      * apply IH. now exists f'.
Qed.

Lemma reported_NoDup (own : string) (fis units : list string) :
  reported IsUnitName own fis units -> NoDup fis -> NoDup units.
Proof.
  induction 1 as [|f fs u us Hu R IH | f fs us No R IH]; intro ND.
  - constructor.
  - inversion ND as [|? ? Hf ND']; subst. constructor; [|now apply IH].
    intro Hin. apply (reported_In own fs us R) in Hin as (f' & Hin & Hr).
    now rewrite (recovers_injective own f f' u Hu Hr) in Hf.
  - inversion ND; subst. now apply IH.
Qed.

Lemma fold_collect_app (ctx : SimpleContext) (a b acc : list string) :
  fold_left (collect IsUnitName ctx) (a ++ b) acc =
  fold_left (collect IsUnitName ctx) b
    (fold_left (collect IsUnitName ctx) a acc).
Proof. apply fold_left_app. Qed.

End JobFileFacts.

Section DeployedUnitsMore.
Import GoErrors Chars Deployer.

Variable UnitTag : string -> string.
Variable IsUnitName : string -> bool.

(** X2. When the listing of the init directory names no file twice,
    [DeployedUnits] names no unit twice. *)
Theorem DeployedUnits_no_duplicates (host : Host) (ctx : SimpleContext)
    (fis : list string) :
  ReadDir host (initDir ctx) = Ok fis ->
  NoDup fis ->
  NoDup (fst (DeployedUnits IsUnitName host ctx)).
Proof.
  intros Hdir ND. unfold DeployedUnits. rewrite Hdir. cbn [fst].
  destruct (fold_collect_reported IsUnitName ctx fis []) as (units & E & R).
  rewrite E. cbn [app].
  exact (reported_NoDup IsUnitName (deployerTag ctx) fis units R ND).
Qed.

(** X3. A file that is not a job file of this deployer for a valid
    unit does not change what [DeployedUnits] returns, wherever it
    stands in the listing. *)
Theorem DeployedUnits_ignores_foreign_file (host host' : Host)
    (ctx : SimpleContext) (before after : list string) (f : string) :
  ReadDir host (initDir ctx) = Ok (before ++ f :: after) ->
  ReadDir host' (initDir ctx) = Ok (before ++ after) ->
  (forall u, ~ recovers IsUnitName (deployerTag ctx) f u) ->
  DeployedUnits IsUnitName host ctx = DeployedUnits IsUnitName host' ctx.
Proof.
  intros H H' No. unfold DeployedUnits. rewrite H, H'. f_equal.
  rewrite !fold_collect_app. cbn [fold_left].
  now rewrite (collect_skip IsUnitName ctx _ f No).
Qed.

(** X4. The job that [upstartService] names for a unit is found again:
    when the unit tag of <name>/<number> is unit-<name>-<number>, the
    deployer tag, name and number are in their character classes and
    the unit name is valid, a listing of the init directory of the
    service that holds <service name>.conf makes [DeployedUnits] report
    <name>/<number>. *)
Theorem DeployedUnits_finds_upstartService (host : Host)
    (ctx : SimpleContext) (name number : string) (fis : list string) :
  UnitTag (name ++ "/" ++ number)%string
    = ("unit-" ++ name ++ "-" ++ number)%string ->
  nonempty_of lower_digit_dash (deployerTag ctx) ->
  nonempty_of lower_digit_dash name ->
  nonempty_of digit number ->
  IsUnitName (name ++ "/" ++ number)%string = true ->
  ReadDir host
    (InitDir (upstartService UnitTag ctx (name ++ "/" ++ number)%string))
    = Ok fis ->
  In (Name (upstartService UnitTag ctx (name ++ "/" ++ number)%string)
        ++ ".conf")%string fis ->
  In (name ++ "/" ++ number)%string
     (fst (DeployedUnits IsUnitName host ctx)).
Proof.
  intros Htag T N D V Hdir Hin.
  unfold DeployedUnits. cbn [InitDir upstartService] in Hdir.
  rewrite Hdir. cbn [fst].
  destruct (fold_collect_reported IsUnitName ctx fis []) as (units & E & R).
  rewrite E. cbn [app].
  apply (reported_In IsUnitName (deployerTag ctx) fis units R).
  eexists. split; [exact Hin|].
  exists (deployerTag ctx), name, number.
  repeat split; try apply T; try apply N; try apply D; try exact V.
  unfold upstartService, job_file_name. cbn [Name].
  rewrite Htag.
  apply chars_inj. rewrite !chars_append, <- !app_assoc. reflexivity.
Qed.

End DeployedUnitsMore.

Section DeployUnitMore.
Import GoErrors Chars Deployer.

Variable UnitTag : string -> string.
Variable ToolsDir : string -> string -> string.
Variable AgentDir : string -> string -> string.
Variable Join : string -> string -> string.
Variable ConfigFilePath : string -> string -> string.
Variable Sprintf : string -> list string -> string.
Variable host : Host.

Local Abbreviation deploy :=
  (DeployUnit UnitTag ToolsDir AgentDir Join ConfigFilePath Sprintf host).
Local Abbreviation svcOf := (upstartService UnitTag).
Local Abbreviation confOf := (agentConf UnitTag).
Local Abbreviation fileNameOf := (syslogFileName UnitTag Sprintf).
Local Abbreviation filePathOf :=
  (syslogFilePath UnitTag ConfigFilePath Sprintf).
Local Abbreviation jobOf := (jobConf UnitTag ToolsDir Join).

(** Takes [DeployUnit] apart along the answers of the host. *)
Ltac deploy_split ctx unitName initialPassword :=
  repeat match goal with
  | |- context [ConfWrite host ?c] =>
      progress change c with (confOf ctx unitName initialPassword)
  | |- context [SyslogWrite host _ ?n] =>
      progress change n with (fileNameOf unitName)
  | |- context [UpstartInstall host ?u] =>
      progress change u with (jobOf ctx unitName)
  end;
  change (ConfigFilePath (syslogConfigDir ctx) (fileNameOf unitName))
    with (filePathOf ctx unitName);
  destruct (Installed host (svcOf ctx unitName)) eqn:?;
  [| destruct (ConfWrite host (confOf ctx unitName initialPassword)) eqn:?;
     [| destruct (SyslogWrite host (syslogConfigDir ctx)
                    (fileNameOf unitName)) eqn:?;
        [| destruct (UpstartInstall host (jobOf ctx unitName)) eqn:? ]]].

Ltac deploy_cases ctx unitName initialPassword :=
  unfold DeployUnit, returning, run_deferred, removeOnErr;
  deploy_split ctx unitName initialPassword.

Lemma snoc_app {A : Type} (x : list A) (a : A) (d : list A) :
  (x ++ [a]) ++ d = x ++ a :: d.
Proof. now rewrite <- app_assoc. Qed.

(** The deferred calls install nothing. *)
Lemma run_deferred_installs_nothing (uconf : UpstartConf) (r e : error)
    (deferred : list string) :
  ~ In (InstalledJob uconf r) (run_deferred Sprintf host e deferred).
Proof.
  unfold run_deferred. rewrite in_flat_map. intros (p & _ & Hp).
  unfold removeOnErr in Hp.
  destruct e; [destruct (OsRemove host p)|]; cbn in Hp;
    intuition discriminate.
Qed.

(** X5. [DeployUnit] returns the first failure among: the job of the
    unit is already installed, writing the agent configuration, writing
    the syslog configuration, installing the job; and nil when none
    fails.  What ChangeAgentTools and the restart of syslog return is
    never returned. *)
Theorem DeployUnit_returns_first_failure (ctx : SimpleContext)
    (unitName initialPassword : string) :
  snd (fst (deploy ctx unitName initialPassword)) =
  if Installed host (svcOf ctx unitName) then
    Errorf Sprintf "unit %q is already deployed" [unitName]
  else
    match ConfWrite host (confOf ctx unitName initialPassword) with
    | Some e => Some e
    | None =>
        match SyslogWrite host (syslogConfigDir ctx) (fileNameOf unitName)
        with
        | Some e => Some e
        | None => UpstartInstall host (jobOf ctx unitName)
        end
    end.
Proof.
  deploy_cases ctx unitName initialPassword; cbn [fst snd]; congruence.
Qed.

(** X6. After a failure [DeployUnit] hands to os.Remove what it has set
    up so far, last first: the tools directory when the agent
    configuration cannot be written; the agent directory, then the tools
    directory when the syslog configuration cannot be written; the
    syslog configuration file, the agent directory, then the tools
    directory when the job cannot be installed. *)
Theorem DeployUnit_removes_last_first (ctx : SimpleContext)
    (unitName initialPassword : string) :
  Installed host (svcOf ctx unitName) = false ->
  (ConfWrite host (confOf ctx unitName initialPassword) <> None ->
   removed (snd (deploy ctx unitName initialPassword)) =
     [ToolsDir (dataDir ctx) (UnitTag unitName)]) /\
  (ConfWrite host (confOf ctx unitName initialPassword) = None ->
   SyslogWrite host (syslogConfigDir ctx) (fileNameOf unitName) <> None ->
   removed (snd (deploy ctx unitName initialPassword)) =
     [AgentDir (dataDir ctx) (UnitTag unitName);
      ToolsDir (dataDir ctx) (UnitTag unitName)]) /\
  (ConfWrite host (confOf ctx unitName initialPassword) = None ->
   SyslogWrite host (syslogConfigDir ctx) (fileNameOf unitName) = None ->
   UpstartInstall host (jobOf ctx unitName) <> None ->
   removed (snd (deploy ctx unitName initialPassword)) =
     [filePathOf ctx unitName;
      AgentDir (dataDir ctx) (UnitTag unitName);
      ToolsDir (dataDir ctx) (UnitTag unitName)]).
Proof.
  intro Hfree.
  deploy_cases ctx unitName initialPassword; try discriminate;
    repeat split; intros; try congruence;
    cbn [snd]; rewrite !removed_app;
    unfold removed; cbn [flat_map];
    repeat match goal with
    | |- context [OsRemove host ?p] => destruct (OsRemove host p)
    | |- context [ChangeAgentTools host ?d ?t] =>
        destruct (ChangeAgentTools host d t)
    | |- context [SyslogRestart host] => destruct (SyslogRestart host)
    end; reflexivity.
Qed.

(** X7. [DeployUnit] leaves the context as it was, or with the path of
    the syslog configuration file of the unit in syslogConfigPath and
    nothing else changed; the latter only once that file has been
    written, and always when it returns nil. *)
Theorem DeployUnit_sets_syslogConfigPath_only (ctx : SimpleContext)
    (unitName initialPassword : string) :
  (fst (fst (deploy ctx unitName initialPassword)) = ctx \/
   fst (fst (deploy ctx unitName initialPassword)) =
     set_syslogConfigPath ctx (filePathOf ctx unitName) /\
   In (WroteSyslog (filePathOf ctx unitName) None)
      (snd (deploy ctx unitName initialPassword))) /\
  (snd (fst (deploy ctx unitName initialPassword)) = None ->
   fst (fst (deploy ctx unitName initialPassword)) =
     set_syslogConfigPath ctx (filePathOf ctx unitName)).
Proof.
  deploy_cases ctx unitName initialPassword; cbn [fst snd];
    (split; [| try discriminate; try reflexivity]);
    try (left; reflexivity);
    right; (split; [reflexivity|]);
    rewrite !in_app_iff; cbn [In]; tauto.
Qed.

(** X8. On a unit whose job is already installed [DeployUnit] returns
    an error and does nothing else: no call that changes the local
    system is made and the context is as it was. *)
Theorem DeployUnit_refuses_installed_unit (ctx : SimpleContext)
    (unitName initialPassword : string) :
  Installed host (svcOf ctx unitName) = true ->
  deploy ctx unitName initialPassword =
    (ctx, Errorf Sprintf "unit %q is already deployed" [unitName], []).
Proof.
  intro H. unfold DeployUnit. now rewrite H.
Qed.

Lemma deploy_success (ctx ctx' : SimpleContext)
    (unitName initialPassword : string) (done : list effect) :
  deploy ctx unitName initialPassword = (ctx', None, done) ->
  ctx' = set_syslogConfigPath ctx (filePathOf ctx unitName) /\
  In (AgentDir (dataDir ctx) (UnitTag unitName)) (created done) /\
  In (filePathOf ctx unitName) (created done) /\
  incl (created done)
    [ToolsDir (dataDir ctx) (UnitTag unitName);
     AgentDir (dataDir ctx) (UnitTag unitName);
     filePathOf ctx unitName].
Proof.
  deploy_cases ctx unitName initialPassword; intro H;
    try discriminate H; inversion H; subst; clear H.
  split; [reflexivity|].
  destruct (ChangeAgentTools host (dataDir ctx) (UnitTag unitName));
    destruct (SyslogRestart host); cbn;
    (split; [tauto | split; [tauto |]]);
    intros p Hp; cbn in Hp; cbn; tauto.
Qed.

(** X20. [DeployUnit] installs a job only as its last step: when the
    job of a unit has been handed to upstart, it is the job of that unit
    under the service that was found not installed, and the agent
    configuration and the syslog configuration have been written without
    error before. *)
Theorem DeployUnit_installs_job_last (ctx : SimpleContext)
    (unitName initialPassword : string) (uconf : UpstartConf) (r : error) :
  In (InstalledJob uconf r) (snd (deploy ctx unitName initialPassword)) ->
  uconf = jobOf ctx unitName /\
  UService uconf = svcOf ctx unitName /\
  Installed host (svcOf ctx unitName) = false /\
  r = snd (fst (deploy ctx unitName initialPassword)) /\
  exists before after,
    snd (deploy ctx unitName initialPassword) =
      before ++ InstalledJob uconf r :: after /\
    In (WroteConf (AgentDir (dataDir ctx) (UnitTag unitName)) None) before /\
    In (WroteSyslog (filePathOf ctx unitName) None) before /\
    after = run_deferred Sprintf host r
              [filePathOf ctx unitName;
               AgentDir (dataDir ctx) (UnitTag unitName);
               ToolsDir (dataDir ctx) (UnitTag unitName)].
Proof.
  unfold DeployUnit, returning.
  deploy_split ctx unitName initialPassword; cbn [fst snd];
    destruct (SyslogRestart host); rewrite ?in_app_iff; cbn [In];
    intro Hin;
    repeat match type of Hin with
    | _ \/ _ => destruct Hin as [Hin|Hin]
    end;
    try contradiction; try discriminate Hin;
    try (now apply run_deferred_installs_nothing in Hin);
    injection Hin as <- <-;
    (split; [reflexivity|]); (split; [reflexivity|]);
    (split; [reflexivity|]); (split; [reflexivity|]);
    eexists _, _; (split; [apply snoc_app|]);
    rewrite ?in_app_iff; cbn; tauto.
Qed.

Section Recall.

Variable host' : Host.
Variable recallHost : RecallHost.

Local Abbreviation recall :=
  (RecallUnit UnitTag ToolsDir AgentDir Sprintf host' recallHost).

(** Takes [RecallUnit] apart along the answers of the host. *)
Ltac recall_cases ctx unitName :=
  unfold RecallUnit;
  destruct (Installed host' (svcOf ctx unitName)) eqn:?; cbn [negb];
  [ destruct (SvcRemove recallHost (svcOf ctx unitName)) eqn:?;
    [| destruct (OsRemoveAll recallHost
                   (AgentDir (dataDir ctx) (UnitTag unitName))) eqn:? ]
  |].

(** X9. [RecallUnit] returns the first failure among: the job of the
    unit is not installed, removing the job, removing the agent
    directory, and, last, removing the tools directory.  Failing to
    remove the syslog configuration file or to restart syslog is never
    returned. *)
Theorem RecallUnit_returns_first_failure (ctx : SimpleContext)
    (unitName : string) :
  fst (recall ctx unitName) =
  if Installed host' (svcOf ctx unitName) then
    match SvcRemove recallHost (svcOf ctx unitName) with
    | Some e => Some e
    | None =>
        match OsRemoveAll recallHost
                (AgentDir (dataDir ctx) (UnitTag unitName)) with
        | Some e => Some e
        | None => OsRemove host' (ToolsDir (dataDir ctx) (UnitTag unitName))
        end
    end
  else Errorf Sprintf "unit %q is not deployed" [unitName].
Proof.
  recall_cases ctx unitName; reflexivity.
Qed.

(** X10. [RecallUnit] takes the unit apart in a fixed order and stops
    at the first step that fails: nothing is removed when the job is not
    installed or cannot be removed; only the agent directory is handed
    to os.RemoveAll when that fails; otherwise the agent directory, the
    path in syslogConfigPath of the context and the tools directory are
    handed to removal, in this order. *)
Theorem RecallUnit_removes_in_order (ctx : SimpleContext)
    (unitName : string) :
  (Installed host' (svcOf ctx unitName) = false \/
   SvcRemove recallHost (svcOf ctx unitName) <> None ->
   recalled (snd (recall ctx unitName)) = []) /\
  (Installed host' (svcOf ctx unitName) = true ->
   SvcRemove recallHost (svcOf ctx unitName) = None ->
   (OsRemoveAll recallHost (AgentDir (dataDir ctx) (UnitTag unitName))
      <> None ->
    recalled (snd (recall ctx unitName)) =
      [AgentDir (dataDir ctx) (UnitTag unitName)]) /\
   (OsRemoveAll recallHost (AgentDir (dataDir ctx) (UnitTag unitName))
      = None ->
    recalled (snd (recall ctx unitName)) =
      [AgentDir (dataDir ctx) (UnitTag unitName);
       syslogConfigPath ctx;
       ToolsDir (dataDir ctx) (UnitTag unitName)])).
Proof.
  recall_cases ctx unitName; cbn [snd];
    (split; [intros [H|H]; try discriminate H; try congruence; reflexivity|]);
    intros; try discriminate; (split; [|]); intros; try congruence;
    unfold recalled; rewrite ?flat_map_app; cbn [flat_map recalled_by app];
    unfold warn_if;
    destruct (OsRemove host' (syslogConfigPath ctx));
    destruct (SyslogRestart host'); reflexivity.
Qed.

Lemma recall_through (ctx : SimpleContext) (unitName : string) :
  Installed host' (svcOf ctx unitName) = true ->
  SvcRemove recallHost (svcOf ctx unitName) = None ->
  OsRemoveAll recallHost (AgentDir (dataDir ctx) (UnitTag unitName))
    = None ->
  recalled (snd (recall ctx unitName)) =
    [AgentDir (dataDir ctx) (UnitTag unitName);
     syslogConfigPath ctx;
     ToolsDir (dataDir ctx) (UnitTag unitName)].
Proof.
  intros H1 H2 H3. unfold RecallUnit. rewrite H1, H2, H3. cbn [negb snd].
  unfold recalled. rewrite ?flat_map_app. cbn [flat_map recalled_by app].
  unfold warn_if.
  destruct (OsRemove host' (syslogConfigPath ctx));
    destruct (SyslogRestart host'); reflexivity.
Qed.

(** X11. A recall undoes a deployment: when [DeployUnit] has returned
    nil, a [RecallUnit] of the same unit on the context it left, whose
    removal of the job and of the agent directory succeed, hands to
    removal every path that the deployment created. *)
Theorem RecallUnit_removes_what_DeployUnit_created
    (ctx ctx' : SimpleContext) (unitName initialPassword : string)
    (done : list effect) :
  deploy ctx unitName initialPassword = (ctx', None, done) ->
  Installed host' (svcOf ctx' unitName) = true ->
  SvcRemove recallHost (svcOf ctx' unitName) = None ->
  OsRemoveAll recallHost (AgentDir (dataDir ctx') (UnitTag unitName))
    = None ->
  incl (created done) (recalled (snd (recall ctx' unitName))) /\
  recalled (snd (recall ctx' unitName)) =
    [AgentDir (dataDir ctx) (UnitTag unitName);
     filePathOf ctx unitName;
     ToolsDir (dataDir ctx) (UnitTag unitName)].
Proof.
  intros Hd H1 H2 H3.
  destruct (deploy_success _ _ _ _ _ Hd) as (-> & _ & _ & Hincl).
  rewrite (recall_through _ _ H1 H2 H3). cbn [syslogConfigPath dataDir
    set_syslogConfigPath].
  split; [|reflexivity].
  intros p Hp. apply Hincl in Hp. cbn in Hp. cbn. tauto.
Qed.

(** X12. The context keeps one syslog configuration path, that of the
    unit deployed last: after two successful deployments, a recall of
    the first unit hands to removal the syslog configuration file of the
    second. *)
Theorem RecallUnit_removes_last_deployed_syslog_file
    (ctx ctx1 ctx2 : SimpleContext) (first second pw1 pw2 : string)
    (done1 done2 : list effect) :
  deploy ctx first pw1 = (ctx1, None, done1) ->
  deploy ctx1 second pw2 = (ctx2, None, done2) ->
  Installed host' (svcOf ctx2 first) = true ->
  SvcRemove recallHost (svcOf ctx2 first) = None ->
  OsRemoveAll recallHost (AgentDir (dataDir ctx2) (UnitTag first)) = None ->
  recalled (snd (recall ctx2 first)) =
    [AgentDir (dataDir ctx) (UnitTag first);
     filePathOf ctx second;
     ToolsDir (dataDir ctx) (UnitTag first)].
Proof.
  intros Hd1 Hd2 H1 H2 H3.
  destruct (deploy_success _ _ _ _ _ Hd1) as (-> & _).
  destruct (deploy_success _ _ _ _ _ Hd2) as (-> & _).
  rewrite (recall_through _ _ H1 H2 H3). reflexivity.
Qed.

(** X19. A context fresh from [NewSimpleContext] holds no syslog
    configuration path: a [RecallUnit] made with it that gets through
    hands to removal the agent directory and the tools directory of the
    unit under the data directory of the context, /var/lib/juju when
    none was given, and the empty path where the syslog configuration
    file of the unit should be. *)
Theorem RecallUnit_of_new_context (dir cert tag : string)
    (stateAddrs apiAddrs : list string) (unitName : string) :
  Installed host'
    (svcOf (NewSimpleContext dir cert tag stateAddrs apiAddrs) unitName)
    = true ->
  SvcRemove recallHost
    (svcOf (NewSimpleContext dir cert tag stateAddrs apiAddrs) unitName)
    = None ->
  OsRemoveAll recallHost
    (AgentDir (if String.eqb dir "" then "/var/lib/juju" else dir)
       (UnitTag unitName)) = None ->
  recalled
    (snd (recall (NewSimpleContext dir cert tag stateAddrs apiAddrs)
            unitName)) =
    [AgentDir (if String.eqb dir "" then "/var/lib/juju" else dir)
       (UnitTag unitName);
     "";
     ToolsDir (if String.eqb dir "" then "/var/lib/juju" else dir)
       (UnitTag unitName)].
Proof.
  intros H1 H2 H3.
  now rewrite (recall_through _ _ H1 H2 H3).
Qed.

End Recall.

End DeployUnitMore.

(* ================================================================== *)
(** * Further properties of the unit worker *)
(* ================================================================== *)

Section WorkerMore.
Import GoErrors.
Import Catacomb(Worker).
Import UnitWorker.

Context {Spec G B : Type}.
Context {getter : ContainerSpecGetter G} {applier : ContainerBroker Spec B}.
Variable ParseContainerSpec : string -> result Spec.

Local Abbreviation state := (UnitWorker.state Spec G B).
Local Abbreviation step := (UnitWorker.step ParseContainerSpec).
Local Abbreviation run := (UnitWorker.run ParseContainerSpec).

Ltac step_cases H :=
  unfold UnitWorker.step, Kill, start, reconcile, returns in H;
  repeat match type of H with
  | context [match ?x with _ => _ end] => destruct x eqn:?
  end;
  try discriminate H; injection H as H; subst.

(** X13. Once the loop has returned, the worker is done: whatever
    happens next can only be Kill, and it makes no further call, leaves
    the broker and the getter alone and keeps the value returned. *)
Theorem returned_worker_does_nothing (inputs : list input) :
  forall (st st' : state) (e : error),
    at_ st = Returned e ->
    run st inputs = Some st' ->
    Forall (eq InKill) inputs /\
    at_ st' = Returned e /\
    calls st' = calls st /\
    broker (worker st') = broker (worker st) /\
    containerSpecGetter (worker st') = containerSpecGetter (worker st).
Proof.
  induction inputs as [|i inputs IH]; intros st st' e Hat Hrun;
    cbn in Hrun.
  - injection Hrun as <-. auto.
  - destruct (step st i) as [st1|] eqn:E; [|discriminate].
    unfold UnitWorker.step in E. rewrite Hat in E.
    destruct i; try discriminate E. injection E as <-.
    destruct (IH (Kill st) st' e Hat Hrun) as (HF & Ha & Hc & Hb & Hg).
    repeat split; auto.
Qed.

(** X14. In every run the worker fetches the container spec once for
    each notification received from the open channel, calls EnsureUnit
    at most once for each fetch, and names its own unit in every call
    to the getter and the broker. *)
Theorem one_fetch_per_notification (app u : string) (b : B) (g : G)
    (inputs : list input) (st : state) :
  run (newUnitWorker app u b g) inputs = Some st ->
  List.length (filter is_fetch (calls st)) =
    List.length (filter is_live_change (calls st)) /\
  ensure_count (calls st) <= List.length (filter is_fetch (calls st)) /\
  Forall (fun c => forall v, unit_of c = Some v -> v = u) (calls st).
Proof.
  intro Hrun.
  assert (I : unit (worker st) = u /\
              List.length (filter is_fetch (calls st)) =
                List.length (filter is_live_change (calls st)) /\
              ensure_count (calls st)
                <= List.length (filter is_fetch (calls st)) /\
              Forall (fun c => forall v, unit_of c = Some v -> v = u)
                (calls st)).
  { apply (run_invariant ParseContainerSpec
             (fun s => unit (worker s) = u /\
                List.length (filter is_fetch (calls s)) =
                  List.length (filter is_live_change (calls s)) /\
                ensure_count (calls s)
                  <= List.length (filter is_fetch (calls s)) /\
                Forall (fun c => forall v, unit_of c = Some v -> v = u)
                  (calls s)))
      with (inputs := inputs) (st := newUnitWorker app u b g);
      [| exact Hrun | cbn; repeat split; auto].
    clear. intros st st' i H (Hu & Hf & He & Hall).
    step_cases H; unfold ensure_count in *; cbn in *;
      (split; [reflexivity|]); (split; [lia|]); (split; [lia|]);
      repeat (constructor; [cbn; intros; congruence|]); assumption. }
  tauto.
Qed.

Lemma step_subscribed_once (u : string) (st st' : state) (i : input) :
  step st i = Some st' ->
  unit (worker st) = u /\ subscribed_once u st ->
  unit (worker st') = u /\ subscribed_once u st'.
Proof.
  intros H (Hu & S). unfold subscribed_once in *.
  step_cases H; cbn in *; (split; [reflexivity|]);
    try exact S; try (destruct (at_ st); exact S);
    try (left; eexists; rewrite S; reflexivity);
    try (exists [], e; rewrite S; split; reflexivity);
    try (destruct S as (newer & r & -> & Hn);
         rewrite ?app_comm_cons;
         first [ right; eexists _, _, _ | eexists _, _ ];
         (split; [reflexivity|]); cbn; exact Hn).
Qed.

(** X15. The worker subscribes once, and first: in every run the oldest
    entry of the log of a started worker is its call of
    WatchContainerSpec for its unit, followed, when that succeeded, by
    the one call of Add for the watcher returned; no later entry is a
    subscription or an Add. *)
Theorem subscribes_once_and_first (app u : string) (b : B) (g : G)
    (inputs : list input) (st : state) :
  run (newUnitWorker app u b g) inputs = Some st ->
  at_ st <> NotStarted ->
  (exists e, calls st = [CallWatchContainerSpec u (Error e)] /\
             at_ st = Returned (Some (Traced e))) \/
  (exists newer cw r,
     calls st = newer ++ [CallAdd cw r; CallWatchContainerSpec u (Ok cw)] /\
     existsb is_subscribing newer = false).
Proof.
  intros Hrun Hstarted.
  assert (I : (unit (worker st) = u /\ subscribed_once u st) /\
              (forall e, calls st = [CallWatchContainerSpec u (Error e)] ->
                         at_ st = Returned (Some (Traced e)))).
  { apply (run_invariant ParseContainerSpec
             (fun s => (unit (worker s) = u /\ subscribed_once u s) /\
                (forall e, calls s = [CallWatchContainerSpec u (Error e)] ->
                           at_ s = Returned (Some (Traced e)))))
      with (inputs := inputs) (st := newUnitWorker app u b g);
      [| exact Hrun | cbn; repeat split; auto; discriminate].
    clear. intros st st' i H (S & F).
    split; [exact (step_subscribed_once u st st' i H S)|].
    destruct S as (Hu & S). unfold subscribed_once in S.
    step_cases H; cbn in *; intros e' He'; try discriminate He';
      try (apply F; exact He');
      try (rewrite S in He'; discriminate He');
      try (injection He' as <-; reflexivity);
      try (destruct S as (newer & r & S & _); rewrite S in He';
           destruct newer; discriminate He'). }
  destruct I as ((_ & S) & F). unfold subscribed_once in S.
  destruct (at_ st) as [|cw|e] eqn:Hat; [congruence | |].
  - right. destruct S as (newer & r & S & Hn). now exists newer, cw, r.
  - destruct S as [(e' & S) | S]; [left | right; exact S].
    exists e'. split; [exact S | now apply F].
Qed.

(** X16. When EnsureUnit fails with [e] the loop returns
    errors.Trace(e), which has the cause of [e]; the call has been made,
    with the broker left as the failed call left it, and it is the last
    thing the worker did. *)
Theorem ensure_failure_is_returned (st : state) (cw : Worker)
    (specStr : string) (spec : Spec) (e : err) :
  at_ st = Watching cw ->
  fetched st = Ok specStr ->
  ParseContainerSpec specStr = Ok spec ->
  fst (EnsureUnit (broker (worker st)) (application (worker st))
         (unit (worker st)) spec) = Some e ->
  exists st',
    step st (InChange true) = Some st' /\
    at_ st' = Returned (Some (Traced e)) /\
    Cause (Traced e) = Cause e /\
    hd_error (calls st') =
      Some (CallEnsureUnit (application (worker st)) (unit (worker st))
              spec (Some e)) /\
    broker (worker st') =
      snd (EnsureUnit (broker (worker st)) (application (worker st))
             (unit (worker st)) spec) /\
    ensure_count (calls st') = S (ensure_count (calls st)).
Proof.
  intros Hat Hfetch Hparse Hensure. unfold fetched in Hfetch.
  unfold UnitWorker.step. rewrite Hat. unfold reconcile.
  destruct (ContainerSpec (containerSpecGetter (worker st))
              (unit (worker st))) as [r g].
  cbn in Hfetch. subst r. rewrite Hparse. cbn.
  destruct (EnsureUnit (broker (worker st)) (application (worker st))
              (unit (worker st)) spec) as [r b].
  cbn in Hensure. subst r.
  eexists. split; [reflexivity|]. cbn. repeat split.
Qed.

(** X17. When the fetch fails with an error [e] that is not a not-found
    error the loop returns errors.Trace(e), which has the cause of [e];
    the payload is not parsed, EnsureUnit is not called and the broker
    is untouched. *)
Theorem fetch_failure_is_returned (st : state) (cw : Worker) (e : err) :
  at_ st = Watching cw ->
  fetched st = Error e ->
  IsNotFound (Some e) = false ->
  exists st',
    step st (InChange true) = Some st' /\
    at_ st' = Returned (Some (Traced e)) /\
    Cause (Traced e) = Cause e /\
    calls st' =
      CallContainerSpec (unit (worker st)) (Error e)
        :: RecvChange true :: calls st /\
    broker (worker st') = broker (worker st).
Proof.
  intros Hat Hfetch Hnf. unfold fetched in Hfetch.
  unfold UnitWorker.step. rewrite Hat. unfold reconcile.
  destruct (ContainerSpec (containerSpecGetter (worker st))
              (unit (worker st))) as [r g].
  cbn in Hfetch. subst r. rewrite Hnf.
  eexists. split; [reflexivity|]. cbn. repeat split.
Qed.

(** X18. When the channel of the watcher is found closed the loop
    returns the error "watcher closed channel" without fetching
    anything: the getter and the broker are untouched. *)
Theorem closed_channel_is_returned (st : state) (cw : Worker) :
  at_ st = Watching cw ->
  exists st',
    step st (InChange false) = Some st' /\
    at_ st' = Returned (Some (New "watcher closed channel")) /\
    calls st' = RecvChange false :: calls st /\
    containerSpecGetter (worker st') = containerSpecGetter (worker st) /\
    broker (worker st') = broker (worker st).
Proof.
  intro Hat. unfold UnitWorker.step. rewrite Hat.
  eexists. split; [reflexivity|]. cbn. repeat split.
Qed.

End WorkerMore.

(** ** The subscription and the supervision unit *)

Section SubscriptionFacts.
Import GoErrors.
Import Catacomb(Worker).
Import UnitWorker.

Context {Spec G B : Type}.
Context {getter : ContainerSpecGetter G} {applier : ContainerBroker Spec B}.
Variable ParseContainerSpec : string -> result Spec.

Local Abbreviation state := (UnitWorker.state Spec G B).
Local Abbreviation step := (UnitWorker.step ParseContainerSpec).
Local Abbreviation run := (UnitWorker.run ParseContainerSpec).

Ltac step_cases H :=
  unfold UnitWorker.step, Kill, start, reconcile, returns in H;
  repeat match type of H with
  | context [match ?x with _ => _ end] => destruct x eqn:?
  end;
  try discriminate H; injection H as H; subst.








End SubscriptionFacts.

(** ** The further properties at work on the test doubles *)

Section DeployerMoreInstances.
Import GoErrors Chars Fixtures Deployer.

Local Abbreviation deploy0 :=
  (DeployUnit unitTag0 toolsDir0 agentDir0 join0 configFilePath0 sprintf0).
Local Abbreviation recall0 :=
  (RecallUnit unitTag0 toolsDir0 agentDir0 sprintf0).

Lemma deployedRe_round_trip_witness :
  FindStringSubmatch deployedRe "jujud-machine-0:unit-mysql-0.conf" =
    ["jujud-machine-0:unit-mysql-0.conf"; "machine-0"; "mysql"; "0"] /\
  forall f whole,
    FindStringSubmatch deployedRe f = [whole; "machine-0"; "mysql"; "0"] ->
    whole = f /\ f = job_file_name "machine-0" "mysql" "0".
Proof.
  destruct (deployedRe_round_trip "machine-0" "mysql" "0") as [H1 H2].
  split; [|exact H2].
  apply H1; (split; [discriminate | reflexivity]).
Defined.

Lemma DeployedUnits_no_duplicates_witness :
  NoDup (fst (DeployedUnits sampleIsUnitName host0 ctx0)).
Proof.
  apply (DeployedUnits_no_duplicates sampleIsUnitName host0 ctx0
           [ "jujud-machine-0:unit-mysql-0.conf";
             "jujud-machine-0:unit-wordpress-12.conf";
             "jujud-machine-1:unit-wordpress-3.conf";
             "jujud-machine-0:unit-wordpress-12.conf.bak";
             "jujud-machine-0:unit-foo-1-2.conf";
             "ssh.conf" ]);
    [reflexivity|].
  repeat (constructor;
          [intro H; cbn in H;
           repeat (destruct H as [H|H]; [discriminate H|]); exact H|]).
  constructor.
Defined.

Lemma DeployedUnits_ignores_foreign_file_witness :
  DeployedUnits sampleIsUnitName host0 ctx0 =
  DeployedUnits sampleIsUnitName host0' ctx0.
Proof.
  apply (DeployedUnits_ignores_foreign_file sampleIsUnitName host0 host0'
           ctx0
           [ "jujud-machine-0:unit-mysql-0.conf";
             "jujud-machine-0:unit-wordpress-12.conf" ]
           [ "jujud-machine-0:unit-wordpress-12.conf.bak";
             "jujud-machine-0:unit-foo-1-2.conf";
             "ssh.conf" ]
           "jujud-machine-1:unit-wordpress-3.conf");
    [reflexivity | reflexivity |].
  intros u Hr.
  apply (collect_keep sampleIsUnitName ctx0 []) in Hr.
  vm_compute in Hr. discriminate Hr.
Defined.

Lemma DeployedUnits_finds_upstartService_witness :
  Name (upstartService unitTag0 ctx0 "mysql/0")
    = "jujud-machine-0:unit-mysql-0" /\
  In "mysql/0" (fst (DeployedUnits sampleIsUnitName host1 ctx0)).
Proof.
  split; [reflexivity|].
  apply (DeployedUnits_finds_upstartService unitTag0 sampleIsUnitName host1
           ctx0 "mysql" "0" ["jujud-machine-0:unit-mysql-0.conf"]);
    try reflexivity; try (split; [discriminate | reflexivity]).
  left. reflexivity.
Defined.

Lemma DeployUnit_removes_last_first_witness :
  removed (snd (deploy0 host0 ctx0 "mysql/0" "secret")) =
    [ "/etc/rsyslog.d/26-juju-unit-mysql-0.conf";
      "/var/lib/juju/agents/unit-mysql-0";
      "/var/lib/juju/tools/unit-mysql-0" ].
Proof.
  destruct (DeployUnit_removes_last_first unitTag0 toolsDir0 agentDir0
              join0 configFilePath0 sprintf0 host0 ctx0 "mysql/0" "secret")
    as (_ & _ & H); [reflexivity|].
  apply H; [reflexivity | reflexivity | discriminate].
Defined.

Lemma DeployUnit_sets_syslogConfigPath_only_witness :
  fst (fst (deploy0 host2 ctx0 "mysql/0" "secret")) =
    set_syslogConfigPath ctx0 "/etc/rsyslog.d/26-juju-unit-mysql-0.conf".
Proof.
  destruct (DeployUnit_sets_syslogConfigPath_only unitTag0 toolsDir0
              agentDir0 join0 configFilePath0 sprintf0 host2 ctx0 "mysql/0"
              "secret") as [_ H].
  apply H. reflexivity.
Defined.

Lemma DeployUnit_refuses_installed_unit_witness :
  deploy0 host1 ctx0 "mysql/0" "secret" =
    (ctx0, Errorf sprintf0 "unit %q is already deployed" ["mysql/0"], []).
Proof.
  apply (DeployUnit_refuses_installed_unit unitTag0 toolsDir0 agentDir0
           join0 configFilePath0 sprintf0 host1 ctx0 "mysql/0" "secret").
  reflexivity.
Defined.

Lemma RecallUnit_removes_in_order_witness :
  recalled (snd (recall0 host1 recallHost0 ctx0 "mysql/0")) =
    [ "/var/lib/juju/agents/unit-mysql-0"; "";
      "/var/lib/juju/tools/unit-mysql-0" ].
Proof.
  destruct (RecallUnit_removes_in_order unitTag0 toolsDir0 agentDir0
              sprintf0 host1 recallHost0 ctx0 "mysql/0") as [_ H].
  destruct (H eq_refl eq_refl) as [_ H']. apply H'. reflexivity.
Defined.

Lemma RecallUnit_removes_what_DeployUnit_created_witness :
  deploy0 host2 ctx0 "mysql/0" "secret" =
    (set_syslogConfigPath ctx0 "/etc/rsyslog.d/26-juju-unit-mysql-0.conf",
     None, snd (deploy0 host2 ctx0 "mysql/0" "secret")) /\
  incl (created (snd (deploy0 host2 ctx0 "mysql/0" "secret")))
    (recalled
       (snd (recall0 host1 recallHost0
               (set_syslogConfigPath ctx0
                  "/etc/rsyslog.d/26-juju-unit-mysql-0.conf")
               "mysql/0"))) /\
  recalled
    (snd (recall0 host1 recallHost0
            (set_syslogConfigPath ctx0
               "/etc/rsyslog.d/26-juju-unit-mysql-0.conf")
            "mysql/0")) =
    [ "/var/lib/juju/agents/unit-mysql-0";
      "/etc/rsyslog.d/26-juju-unit-mysql-0.conf";
      "/var/lib/juju/tools/unit-mysql-0" ].
Proof.
  split; [reflexivity|].
  apply (RecallUnit_removes_what_DeployUnit_created unitTag0 toolsDir0
           agentDir0 join0 configFilePath0 sprintf0 host2 host1 recallHost0
           ctx0 _ "mysql/0" "secret" _);
    reflexivity.
Defined.

Lemma RecallUnit_removes_last_deployed_syslog_file_witness :
  recalled
    (snd (recall0 host1 recallHost0
            (set_syslogConfigPath ctx0
               "/etc/rsyslog.d/26-juju-unit-wordpress-12.conf")
            "mysql/0")) =
    [ "/var/lib/juju/agents/unit-mysql-0";
      "/etc/rsyslog.d/26-juju-unit-wordpress-12.conf";
      "/var/lib/juju/tools/unit-mysql-0" ].
Proof.
  apply (RecallUnit_removes_last_deployed_syslog_file unitTag0 toolsDir0
           agentDir0 join0 configFilePath0 sprintf0 host2 host1 recallHost0
           ctx0
           (set_syslogConfigPath ctx0
              "/etc/rsyslog.d/26-juju-unit-mysql-0.conf")
           (set_syslogConfigPath ctx0
              "/etc/rsyslog.d/26-juju-unit-wordpress-12.conf")
           "mysql/0" "wordpress/12" "secret" "secret"
           (snd (deploy0 host2 ctx0 "mysql/0" "secret"))
           (snd (deploy0 host2
                   (set_syslogConfigPath ctx0
                      "/etc/rsyslog.d/26-juju-unit-mysql-0.conf")
                   "wordpress/12" "secret")));
    reflexivity.
Defined.

Lemma RecallUnit_of_new_context_witness :
  recalled
    (snd (recall0 host1 recallHost0
            (NewSimpleContext "" "" "machine-0" [] []) "mysql/0")) =
    [ "/var/lib/juju/agents/unit-mysql-0"; "";
      "/var/lib/juju/tools/unit-mysql-0" ].
Proof.
  apply (RecallUnit_of_new_context unitTag0 toolsDir0 agentDir0 sprintf0
           host1 recallHost0 "" "" "machine-0" [] [] "mysql/0");
    reflexivity.
Defined.

Lemma DeployUnit_installs_job_last_witness :
  In (InstalledJob (jobConf unitTag0 toolsDir0 join0 ctx0 "mysql/0") None)
     (snd (deploy0 host2 ctx0 "mysql/0" "secret")) /\
  Name (UService (jobConf unitTag0 toolsDir0 join0 ctx0 "mysql/0"))
    = "jujud-machine-0:unit-mysql-0" /\
  exists before after,
    snd (deploy0 host2 ctx0 "mysql/0" "secret") =
      before
        ++ InstalledJob (jobConf unitTag0 toolsDir0 join0 ctx0 "mysql/0") None
        :: after /\
    In (WroteConf "/var/lib/juju/agents/unit-mysql-0" None) before /\
    In (WroteSyslog "/etc/rsyslog.d/26-juju-unit-mysql-0.conf" None) before /\
    after = [].
Proof.
  assert (Hin : In (InstalledJob
                      (jobConf unitTag0 toolsDir0 join0 ctx0 "mysql/0") None)
                   (snd (deploy0 host2 ctx0 "mysql/0" "secret"))).
  { cbn. auto 10. }
  split; [exact Hin|]. split; [reflexivity|].
  destruct (DeployUnit_installs_job_last unitTag0 toolsDir0 agentDir0 join0
              configFilePath0 sprintf0 host2 ctx0 "mysql/0" "secret" _ _ Hin)
    as (_ & _ & _ & _ & before & after & E & H1 & H2 & H3).
  exists before, after. auto.
Defined.

End DeployerMoreInstances.

Section WorkerMoreInstances.
Import GoErrors Fixtures UnitWorker.
Import Catacomb(Worker).

Lemma returned_worker_does_nothing_witness :
  at_ lateWorker3 =
    Returned (Some (Annotated (New "empty container spec")
                      "cannot parse container spec")) /\
  run parseSpec lateWorker3 [InKill; InKill] = Some (Kill (Kill lateWorker3)) /\
  Forall (eq InKill) [InKill; InKill] /\
  at_ (Kill (Kill lateWorker3)) =
    Returned (Some (Annotated (New "empty container spec")
                      "cannot parse container spec")) /\
  calls (Kill (Kill lateWorker3)) = calls lateWorker3 /\
  broker (worker (Kill (Kill lateWorker3))) = broker (worker lateWorker3) /\
  containerSpecGetter (worker (Kill (Kill lateWorker3)))
    = containerSpecGetter (worker lateWorker3).
Proof.
  split; [reflexivity|]. split; [reflexivity|].
  apply (returned_worker_does_nothing parseSpec [InKill; InKill]
           lateWorker3 (Kill (Kill lateWorker3)));
    reflexivity.
Defined.

Lemma one_fetch_per_notification_witness :
  run parseSpec (newUnitWorker "gitlab" "gitlab/0" quietBroker lateGetter)
    [InStart; InChange true; InChange true; InChange true]
    = Some lateWorker3 /\
  List.length (filter is_fetch (calls lateWorker3)) =
    List.length (filter is_live_change (calls lateWorker3)) /\
  ensure_count (calls lateWorker3)
    <= List.length (filter is_fetch (calls lateWorker3)) /\
  Forall (fun c => forall v, unit_of c = Some v -> v = "gitlab/0")
    (calls lateWorker3).
Proof.
  split; [reflexivity|].
  apply (one_fetch_per_notification parseSpec "gitlab" "gitlab/0"
           quietBroker lateGetter
           [InStart; InChange true; InChange true; InChange true]
           lateWorker3).
  reflexivity.
Defined.

Lemma subscribes_once_and_first_witness :
  run parseSpec (newUnitWorker "gitlab" "gitlab/0" quietBroker lateGetter)
    [InStart; InChange true; InChange true] = Some lateWorker2 /\
  ((exists e, calls lateWorker2 = [CallWatchContainerSpec "gitlab/0" (Error e)]
              /\ at_ lateWorker2 = Returned (Some (Traced e))) \/
   (exists newer cw r,
      calls lateWorker2 =
        newer ++ [CallAdd cw r; CallWatchContainerSpec "gitlab/0" (Ok cw)] /\
      existsb is_subscribing newer = false)).
Proof.
  split; [reflexivity|].
  apply (subscribes_once_and_first parseSpec "gitlab" "gitlab/0"
           quietBroker lateGetter [InStart; InChange true; InChange true]
           lateWorker2);
    [reflexivity | discriminate].
Defined.

Lemma ensure_failure_is_returned_witness :
  exists st',
    step parseSpec brokenWorker (InChange true) = Some st' /\
    at_ st' = Returned (Some (Traced (New "pods is forbidden"))) /\
    Cause (Traced (New "pods is forbidden")) = Cause (New "pods is forbidden")
    /\
    hd_error (calls st') =
      Some (CallEnsureUnit "gitlab" "gitlab/0" "image: gitlab"
              (Some (New "pods is forbidden"))) /\
    broker (worker st') =
      {| replies := []; ensured := [("gitlab", "gitlab/0", "image: gitlab")] |}
    /\
    ensure_count (calls st') = S (ensure_count (calls brokenWorker)).
Proof.
  exact (ensure_failure_is_returned parseSpec brokenWorker watcher0
           "image: gitlab" "image: gitlab" (New "pods is forbidden")
           eq_refl eq_refl eq_refl eq_refl).
Defined.

Lemma fetch_failure_is_returned_witness :
  exists st',
    step parseSpec flakyWorker (InChange true) = Some st' /\
    at_ st' =
      Returned (Some (Traced (Traced (New "connection is shut down")))) /\
    Cause (Traced (Traced (New "connection is shut down")))
      = Cause (Traced (New "connection is shut down")) /\
    calls st' =
      CallContainerSpec "gitlab/0"
        (Error (Traced (New "connection is shut down")))
        :: RecvChange true :: calls flakyWorker /\
    broker (worker st') = broker (worker flakyWorker).
Proof.
  apply (fetch_failure_is_returned parseSpec flakyWorker watcher0
           (Traced (New "connection is shut down")));
    reflexivity.
Defined.

Lemma closed_channel_is_returned_witness :
  exists st',
    step parseSpec steadyWorker (InChange false) = Some st' /\
    at_ st' = Returned (Some (New "watcher closed channel")) /\
    calls st' = RecvChange false :: calls steadyWorker /\
    containerSpecGetter (worker st')
      = containerSpecGetter (worker steadyWorker) /\
    broker (worker st') = broker (worker steadyWorker).
Proof.
  apply (closed_channel_is_returned parseSpec steadyWorker watcher0).
  reflexivity.
Defined.


End WorkerMoreInstances.
